(** * next-safe-action: the action builder and its client hooks

    A shallow embedding of [createSafeActionClient] (server side) and of
    [getActionStatus], [useActionCallbacks], [useAction] and
    [useOptimisticAction] (client side), with the properties the
    specification states about them.

    Conventions.
    - A JavaScript object with optional keys is a record of [option]
      fields; [None] is the case [typeof field === "undefined"].
    - An [async] function is a computation over the state of the
      surrounding program (an abstract world [W]) whose promise is either
      [Fulfilled] or [Rejected]; it also yields the list of calls it made
      to the configured callbacks and to the console, in order.  That list
      is what a call-count spy would observe.  A callback whose promise
      never settles leaves the promise of its caller pending; the
      statements below are about the runs that settle.
    - Plain objects that are compared by identity (the dependency list of
      [useEffect]) carry an explicit reference.
    - What the JavaScript engine itself does (writing a number as a
      property key, the [TypeError] of a call on a non-function, telling
      whether a value is [undefined]) is an interface, as [./utils] is. *)

From stdpp Require Import base option list strings gmap pretty.

(** ** The result shape shared by server and client *)

Record ActionResult (Data Thrown : Type) : Type := mkResult {
  data : option Data;
  validationError : option (gmap string (list string));
  serverError : option string;
  fetchError : option Thrown;
}.
Arguments mkResult {Data Thrown} _ _ _ _.
Arguments data {Data Thrown} _.
Arguments validationError {Data Thrown} _.
Arguments serverError {Data Thrown} _.
Arguments fetchError {Data Thrown} _.

(** The object literal [{}]. *)
Definition emptyResult {Data Thrown} : ActionResult Data Thrown :=
  mkResult None None None None.

Definition defined {A} (o : option A) : nat :=
  match o with Some _ => 1 | None => 0 end.

(** Number of variants that are populated in a result. *)
Definition populated {Data Thrown} (r : ActionResult Data Thrown) : nat :=
  defined (data r) + defined (validationError r)
  + defined (serverError r) + defined (fetchError r).

(** ** Promises and effects *)

Inductive Settled (Thrown A : Type) : Type :=
| Fulfilled (a : A)
| Rejected (e : Thrown).
Arguments Fulfilled {Thrown A} _.
Arguments Rejected {Thrown A} _.

(** A callback supplied by the application: it runs on the world and
    either returns or throws. *)
Definition Callback (W Thrown A : Type) : Type := W → Settled Thrown A * W.

(** ** The engine *)

(** How the engine writes a numeric path segment when it is used as a
    property key ([ToString] of a number). *)
Class JsEngine : Type := {
  number_to_string : N → string;
}.

(** The values that can be thrown: [is_undefined] tells the value
    [undefined] from the others, and [typeError] is the [TypeError] the
    engine throws when something that is not a function is called. *)
Class JsThrowables (Thrown : Type) : Type := {
  is_undefined : Thrown → bool;
  typeError : Thrown;
}.

(** The properties every object literal inherits from
    [Object.prototype]; none of them is an array. *)
Definition object_prototype_members : list string :=
  ["__defineGetter__"; "__defineSetter__"; "__lookupGetter__";
   "__lookupSetter__"; "__proto__"; "constructor"; "hasOwnProperty";
   "isPrototypeOf"; "propertyIsEnumerable"; "toLocaleString"; "toString";
   "valueOf"].

Definition inherited (k : string) : bool :=
  bool_decide (k ∈ object_prototype_members).

(** ** The schema collaborator (zod) *)

(** A path segment of an issue is a property name or an array index. *)
Inductive PathSeg : Type :=
| PKey (s : string)
| PIdx (n : N).

(** The property key a segment denotes when it indexes a plain object. *)
Definition property_key `{!JsEngine} (seg : PathSeg) : string :=
  match seg with
  | PKey s => s
  | PIdx n => number_to_string n
  end.

Record ZodIssue : Type := mkIssue {
  path : list PathSeg;
  message : string;
}.

Record ZodError : Type := mkZodError { issues : list ZodIssue }.

Record Flattened : Type := mkFlattened {
  formErrors : list string;
  fieldErrors : gmap string (list string);
}.

(** One turn of the loop of [ZodError.flatten()].  An issue with an
    empty path is a form error.  Any other issue is filed under the first
    segment of its path by
    [fieldErrors[k] = fieldErrors[k] || []; fieldErrors[k].push(message)]
    on the object literal [fieldErrors]: when [k] names a member of
    [Object.prototype], [fieldErrors[k]] is that member, which has no
    [push], and the call throws. *)
Definition flatten_issue `{!JsEngine} {Thrown} `{!JsThrowables Thrown}
    (acc : Flattened) (sub : ZodIssue) : Settled Thrown Flattened :=
  match path sub with
  | [] => Fulfilled (mkFlattened (formErrors acc ++ [message sub]) (fieldErrors acc))
  | seg :: _ =>
      let k := property_key seg in
      if inherited k then Rejected typeError
      else
        Fulfilled
          (mkFlattened (formErrors acc)
             (<[k := default [] (fieldErrors acc !! k) ++ [message sub]]>
                (fieldErrors acc)))
  end.

(** The loop of [ZodError.flatten()], from a given accumulator. *)
Fixpoint flatten_from `{!JsEngine} {Thrown} `{!JsThrowables Thrown}
    (acc : Flattened) (l : list ZodIssue) : Settled Thrown Flattened :=
  match l with
  | [] => Fulfilled acc
  | sub :: l' =>
      match flatten_issue acc sub with
      | Fulfilled acc' => flatten_from acc' l'
      | Rejected e => Rejected e
      end
  end.

(** [ZodError.flatten()] *)
Definition flatten `{!JsEngine} {Thrown} `{!JsThrowables Thrown}
    (err : ZodError) : Settled Thrown Flattened :=
  flatten_from (mkFlattened [] ∅) (issues err).

Inductive SafeParseReturn (Parsed : Type) : Type :=
| SafeParseSuccess (parsed : Parsed)
| SafeParseError (error : ZodError).
Arguments SafeParseSuccess {Parsed} _.
Arguments SafeParseError {Parsed} _.

(** The field an issue is filed under, if any. *)
Definition issue_field `{!JsEngine} (sub : ZodIssue) : option string :=
  property_key <$> head (path sub).

(** The messages of the issues filed under field [k], in issue order. *)
Definition field_messages `{!JsEngine} (k : string) (l : list ZodIssue)
  : list string :=
  message <$> filter (λ sub, issue_field sub = Some k) l.

(** No issue is filed under a name that object literals inherit. *)
Definition plain_fields `{!JsEngine} (l : list ZodIssue) : Prop :=
  ∀ sub k, sub ∈ l → issue_field sub = Some k → inherited k = false.

(** What [./utils] exports, as an interface over the values that can be
    thrown: three recognisers and the generic message.  [errorMessage]
    reads the [message] property of a thrown value. *)
Class Utils (Thrown : Type) : Type := {
  isError : Thrown → bool;
  isNextRedirectError : Thrown → bool;
  isNextNotFoundError : Thrown → bool;
  DEFAULT_SERVER_ERROR : string;
  errorMessage : Thrown → string;
}.

Section Server.

Context {Input Parsed Ctx Data W Thrown : Type}.
Context `{!Utils Thrown} `{!JsThrowables Thrown} `{!JsEngine}.

(** The object literal [{}] cast to the context type is [∅ : Ctx]. *)
Context `{!Empty Ctx}.

(** Calls observed by spies on the callbacks and on the console. *)
Inductive Event : Type :=
| Call_buildContext
| Call_serverCode (parsedInput : Parsed) (ctx : Ctx)
| Call_handleServerErrorLog (e : Thrown)
| Call_handleReturnedServerError (e : Thrown)
| Console_error (label msg : string)
| Console_warn (label : string) (e : Thrown).

Definition Async (A : Type) : Type := W → Settled Thrown A * W * list Event.

Definition ret {A} (a : A) : Async A := λ w, (Fulfilled a, w, []).

Definition throw {A} (e : Thrown) : Async A := λ w, (Rejected e, w, []).

(** [await m] followed by the rest of the function body. *)
Definition bind {A B} (m : Async A) (k : A → Async B) : Async B :=
  λ w, match m w with
       | (Fulfilled a, w1, t1) =>
           let '(r, w2, t2) := k a w1 in (r, w2, t1 ++ t2)
       | (Rejected e, w1, t1) => (Rejected e, w1, t1)
       end.

(** [try { m } catch (e) { h e }] *)
Definition try_catch {A} (m : Async A) (h : Thrown → Async A) : Async A :=
  λ w, match m w with
       | (Fulfilled a, w1, t1) => (Fulfilled a, w1, t1)
       | (Rejected e, w1, t1) =>
           let '(r, w2, t2) := h e w1 in (r, w2, t1 ++ t2)
       end.

Definition emit (ev : Event) : Async unit := λ w, (Fulfilled tt, w, [ev]).

(** Calling an application callback, observed as [ev]. *)
Definition call {A} (ev : Event) (f : Callback W Thrown A) : Async A :=
  λ w, let '(r, w1) := f w in (r, w1, [ev]).

(** Calling a method of the schema; it is not spied upon. *)
Definition invoke {A} (f : Callback W Thrown A) : Async A :=
  λ w, let '(r, w1) := f w in (r, w1, []).

(** A synchronous call of a library function that returns or throws. *)
Definition settled {A} (r : Settled Thrown A) : Async A := λ w, (r, w, []).

Notation "x <- m ;; k" := (bind m (λ x, k))
  (at level 100, m at next level, right associativity).
Notation "m ;;; k" := (bind m (λ _, k))
  (at level 100, right associativity).

Record Schema : Type := mkSchema {
  safeParse : Input → Callback W Thrown (SafeParseReturn Parsed);
}.

(** The handler; it returns [None] when it returns [undefined]. *)
Definition ServerCode : Type := Parsed → Ctx → Callback W Thrown (option Data).

(** The object [handleReturnedServerError] resolves to.  Its type,
    [{ serverError: string }], promises that key; as every object type it
    admits objects with more keys, of which the keys of a result are
    kept here. *)
Record ReturnedServerError : Type := mkReturned {
  returned_serverError : string;
  returned_data : option Data;
  returned_validationError : option (gmap string (list string));
  returned_fetchError : option Thrown;
}.

(** The object [{ serverError: s }]. *)
Definition only_serverError (s : string) : ReturnedServerError :=
  mkReturned s None None None.

(** The object the mapper resolved to, read as a result. *)
Definition returned_object (r : ReturnedServerError) : ActionResult Data Thrown :=
  mkResult (returned_data r) (returned_validationError r)
    (Some (returned_serverError r)) (returned_fetchError r).

Record CreateOpts : Type := mkOpts {
  buildContext : option (Callback W Thrown Ctx);
  handleReturnedServerError : option (Thrown → Callback W Thrown ReturnedServerError);
  handleServerErrorLog : option (Thrown → Callback W Thrown unit);
}.

Definition Result : Type := ActionResult Data Thrown.

Section Client.

Variable createOpts : option CreateOpts.

(** [createOpts?.handleServerErrorLog || (async (e) => console.error(...))] *)
Definition resolved_handleServerErrorLog (e : Thrown) : Async unit :=
  match createOpts ≫= handleServerErrorLog with
  | Some f => invoke (f e)
  | None => emit (Console_error "Action error:" (errorMessage e))
  end.

(** [createOpts?.handleReturnedServerError ||
     (async () => ({ serverError: DEFAULT_SERVER_ERROR }))] *)
Definition resolved_handleReturnedServerError (e : Thrown) : Async ReturnedServerError :=
  match createOpts ≫= handleReturnedServerError with
  | Some f => invoke (f e)
  | None => ret (only_serverError DEFAULT_SERVER_ERROR)
  end.

(** [(await createOpts?.buildContext?.()) ?? {}].  The type of
    [buildContext] promises an object, so [??] only acts when
    [buildContext] is absent. *)
Definition await_ctx : Async Ctx :=
  match createOpts ≫= buildContext with
  | Some f => call Call_buildContext f
  | None => ret ∅
  end.

Variable schema : Schema.
Variable serverCode : ServerCode.

(** The body of the [try] block of the built action. *)
Definition action_try (clientInput : Input) : Async Result :=
  parsedInput <- invoke (safeParse schema clientInput) ;;
  match parsedInput with
  | SafeParseError error =>
      flattened <- settled (flatten error) ;;
      let fieldErrors := fieldErrors flattened in
      ret (mkResult None (Some fieldErrors) None None)
  | SafeParseSuccess parsed =>
      ctx <- await_ctx ;;
      d <- call (Call_serverCode parsed ctx) (serverCode parsed ctx) ;;
      ret (mkResult d None None None)
  end.

(** The body of the [catch (e)] block of the built action. *)
Definition action_catch (e : Thrown) : Async Result :=
  if isNextRedirectError e || isNextNotFoundError e then throw e
  else if negb (isError e) then
    emit (Console_warn "Could not handle server error. Not an instance of Error: " e) ;;;
    ret (mkResult None None (Some DEFAULT_SERVER_ERROR) None)
  else
    (emit (Call_handleServerErrorLog e) ;;; resolved_handleServerErrorLog e) ;;;
    r <- (emit (Call_handleReturnedServerError e) ;;;
          resolved_handleReturnedServerError e) ;;
    ret (returned_object r).

(** [actionBuilder(schema, serverCode)]: the function called by the client. *)
Definition actionBuilder (clientInput : Input) : Async Result :=
  try_catch (action_try clientInput) action_catch.

End Client.

(** [createSafeActionClient(createOpts)] is [actionBuilder] closed over
    the options. *)
Definition createSafeActionClient (createOpts : option CreateOpts)
  : Schema → ServerCode → Input → Async Result :=
  actionBuilder createOpts.

End Server.

(** The calls to the handler recorded in a trace, with their arguments. *)
Definition serverCode_calls {Parsed Ctx Thrown}
    (t : list (@Event Parsed Ctx Thrown)) : list (Parsed * Ctx) :=
  omap (λ ev, match ev with
              | Call_serverCode p c => Some (p, c)
              | _ => None
              end) t.

(** The calls to [buildContext] recorded in a trace. *)
Definition buildContext_calls {Parsed Ctx Thrown}
    (t : list (@Event Parsed Ctx Thrown)) : nat :=
  length (omap (λ ev, match ev with
                      | Call_buildContext => Some ()
                      | _ => None
                      end) t).

(** The errors handed to the logging hook, in order. *)
Definition log_calls {Parsed Ctx Thrown}
    (t : list (@Event Parsed Ctx Thrown)) : list Thrown :=
  omap (λ ev, match ev with
              | Call_handleServerErrorLog e => Some e
              | _ => None
              end) t.

(** The errors handed to the server-error mapper, in order. *)
Definition mapper_calls {Parsed Ctx Thrown}
    (t : list (@Event Parsed Ctx Thrown)) : list Thrown :=
  omap (λ ev, match ev with
              | Call_handleReturnedServerError e => Some e
              | _ => None
              end) t.

(** A thrown value that is one of the framework's navigation signals. *)
Definition isNavigationSignal {Thrown} `{!Utils Thrown} (e : Thrown) : bool :=
  isNextRedirectError e || isNextNotFoundError e.

(** ** Client side: status derivation *)

Inductive HookActionStatus : Type :=
| idle
| executing
| hasSucceded
| hasErrored.

#[global] Instance HookActionStatus_eq_dec : EqDecision HookActionStatus.
Proof. solve_decision. Defined.

(** [typeof x !== "undefined"] *)
Definition is_defined {A} (x : option A) : bool :=
  match x with Some _ => true | None => false end.

Definition getActionStatus {Data Thrown}
    (isExecuting : bool) (response : ActionResult Data Thrown) : HookActionStatus :=
  if isExecuting then executing
  else if is_defined (data response) then hasSucceded
  else if is_defined (validationError response)
          || is_defined (serverError response)
          || is_defined (fetchError response)
  then hasErrored
  else idle.

(** ** Client side: what the rendering library keeps between renders *)

(** The identity of an object: a literal allocated by the hook itself, or
    an object handed over by the action's promise. *)
Inductive Ref : Type :=
| Lit (n : nat)
| Ext (n : nat).

#[global] Instance Ref_eq_dec : EqDecision Ref.
Proof. solve_decision. Defined.

Record Obj (A : Type) : Type := mkObj { ref : Ref; val : A }.
Arguments mkObj {A} _ _.
Arguments ref {A} _.
Arguments val {A} _.

(** The identity of a function value: a callback written by the
    application, or the hook's memoised [reset]. *)
Inductive FnRef : Type :=
| UserFn (n : nat)
| ResetFn.

#[global] Instance FnRef_eq_dec : EqDecision FnRef.
Proof. solve_decision. Defined.

Record HookCallbacks : Type := mkCallbacks {
  onSuccess : option FnRef;
  onError : option FnRef;
}.

(** The cells [useActionCallbacks] owns: two refs and the dependency
    list of its effect as of the previous render. *)
Record CallbackCells : Type := mkCells {
  onSuccessRef : option FnRef;
  onErrorRef : option FnRef;
  effectDeps : HookActionStatus * Ref * FnRef;
}.

Section Hooks.

Context {Input Data Thrown : Type}.
Context `{!Utils Thrown} `{!JsThrowables Thrown}.

Definition HookResponse : Type := Obj (ActionResult Data Thrown).

(** The object literal [{ fetchError: e }]: the key is there, and its
    value is undefined when [e] is. *)
Definition fetchError_object (e : Thrown) : ActionResult Data Thrown :=
  mkResult None None None (if is_undefined e then None else Some e).

(** A call of one of the application's callbacks, with its arguments. *)
Inductive CallbackCall : Type :=
| Call_onSuccess (f : FnRef) (d : option Data) (input : option Input) (reset : FnRef)
| Call_onError (f : FnRef) (response : HookResponse) (input : option Input) (reset : FnRef).

(** The body of the effect of [useActionCallbacks]. *)
Definition callbacks_effect (onSuccess onError : option FnRef)
    (response : HookResponse) (input : option Input)
    (status : HookActionStatus) (reset : FnRef) : list CallbackCall :=
  match onSuccess, bool_decide (status = hasSucceded) with
  | Some f, true => [Call_onSuccess f (data (val response)) input reset]
  | _, _ =>
      match onError, bool_decide (status = hasErrored) with
      | Some g, true => [Call_onError g response input reset]
      | _, _ => []
      end
  end.

(** One render of [useActionCallbacks].  [cells] is [None] on the first
    render.  [useRef(initial)] reads [initial] on the first render only;
    the effect runs after the first render and after every render in
    which an entry of [[status, response, reset]] is not the same value
    as in the previous render. *)
Definition useActionCallbacks (response : HookResponse) (input : option Input)
    (status : HookActionStatus) (reset : FnRef) (cb : option HookCallbacks)
    (cells : option CallbackCells) : CallbackCells * list CallbackCall :=
  let onSuccessRef' :=
    match cells with Some c => onSuccessRef c | None => cb ≫= onSuccess end in
  let onErrorRef' :=
    match cells with Some c => onErrorRef c | None => cb ≫= onError end in
  let deps := (status, ref response, reset) in
  let run :=
    match cells with
    | Some c => bool_decide (effectDeps c ≠ deps)
    | None => true
    end in
  (mkCells onSuccessRef' onErrorRef' deps,
   if run then callbacks_effect onSuccessRef' onErrorRef' response input status reset
   else []).

(** *** [useAction] *)

Record UseActionState : Type := mkUseAction {
  ua_isExecuting : bool;
  ua_response : HookResponse;
  ua_input : option Input;
  ua_literals : nat;
  ua_cells : option CallbackCells;
}.

(** Before the first render: [useState({})], [useState()], no transition. *)
Definition useAction_initial : UseActionState :=
  mkUseAction false (mkObj (Lit 0) emptyResult) None 1 None.

Record UseActionReturn : Type := mkUseActionReturn {
  uar_response : HookResponse;
  uar_status : HookActionStatus;
}.

(** One render of the hook; [execute] and [reset] of the returned object
    are the two functions below. *)
Definition useAction (cb : option HookCallbacks) (st : UseActionState)
  : UseActionState * UseActionReturn * list CallbackCall :=
  let status := getActionStatus (ua_isExecuting st) (val (ua_response st)) in
  let '(cells, calls) :=
    useActionCallbacks (ua_response st) (ua_input st) status ResetFn cb (ua_cells st) in
  (mkUseAction (ua_isExecuting st) (ua_response st) (ua_input st)
     (ua_literals st) (Some cells),
   mkUseActionReturn (ua_response st) status,
   calls).

(** [execute(input)]: [setInput(input)] and [startTransition(...)]. *)
Definition useAction_execute (input : Input) (st : UseActionState) : UseActionState :=
  mkUseAction true (ua_response st) (Some input) (ua_literals st) (ua_cells st).

(** The rendering library ends the transition. *)
Definition useAction_transition_end (st : UseActionState) : UseActionState :=
  mkUseAction false (ua_response st) (ua_input st) (ua_literals st) (ua_cells st).

(** The [.then(...).catch(...)] chain on the promise of the action. *)
Definition useAction_settled (o : Settled Thrown HookResponse)
    (st : UseActionState) : UseActionState :=
  match o with
  | Fulfilled response =>
      mkUseAction (ua_isExecuting st) response (ua_input st)
        (ua_literals st) (ua_cells st)
  | Rejected e =>
      if isNextRedirectError e || isNextNotFoundError e then st
      else
        mkUseAction (ua_isExecuting st)
          (mkObj (Lit (ua_literals st)) (fetchError_object e))
          (ua_input st) (S (ua_literals st)) (ua_cells st)
  end.

(** [reset()]: [setResponse({})]. *)
Definition useAction_reset (st : UseActionState) : UseActionState :=
  mkUseAction (ua_isExecuting st)
    (mkObj (Lit (ua_literals st)) emptyResult)
    (ua_input st) (S (ua_literals st)) (ua_cells st).

(** What happens to a hook instance: the component renders, the
    application calls [execute] or [reset], the rendering library ends
    the transition, or the promise of [executor.current(input)] settles. *)
Inductive UseActionEvent : Type :=
| Render (cb : option HookCallbacks)
| Execute (input : Input)
| TransitionEnd
| Settle (o : Settled Thrown HookResponse)
| Reset.

Definition useAction_step (ev : UseActionEvent) (st : UseActionState)
  : UseActionState * list CallbackCall :=
  match ev with
  | Render cb => let '(st', _, calls) := useAction cb st in (st', calls)
  | Execute input => (useAction_execute input st, [])
  | TransitionEnd => (useAction_transition_end st, [])
  | Settle o => (useAction_settled o st, [])
  | Reset => (useAction_reset st, [])
  end.

(** The life of one hook instance: the final state and every callback
    call made, in order. *)
Fixpoint useAction_run (evs : list UseActionEvent) (st : UseActionState)
  : UseActionState * list CallbackCall :=
  match evs with
  | [] => (st, [])
  | ev :: evs' =>
      let '(st1, calls1) := useAction_step ev st in
      let '(st2, calls2) := useAction_run evs' st1 in
      (st2, calls1 ++ calls2)
  end.

Definition call_input (c : CallbackCall) : option Input :=
  match c with
  | Call_onSuccess _ _ input _ => input
  | Call_onError _ _ input _ => input
  end.

Definition call_fn (c : CallbackCall) : FnRef :=
  match c with
  | Call_onSuccess f _ _ _ => f
  | Call_onError f _ _ _ => f
  end.

Definition is_Execute (ev : UseActionEvent) : bool :=
  match ev with Execute _ => true | _ => false end.

End Hooks.

(** *** [useOptimisticAction]

    The data of an optimistic action is a plain object, a finite map from
    property names to values; spreading [{...a, ...b}] is [b ∪ a]. *)

Section Optimistic.

Context {Input V Thrown : Type}.
Context `{!Utils Thrown} `{!JsThrowables Thrown}.

(** [Data & { __isExecuting__: boolean }]: the data properties and the
    marker, which shadows a data property of the same name. *)
Record OptState : Type := mkOptState {
  opt_data : gmap string V;
  __isExecuting__ : bool;
}.

(** [{ ...initialOptData, ...response.data, __isExecuting__: false }] *)
Definition opt_passthrough (initialOptData : gmap string V)
    (response : @HookResponse (gmap string V) Thrown) : OptState :=
  mkOptState
    (delete "__isExecuting__" (default ∅ (data (val response)) ∪ initialOptData))
    false.

(** [(state, newState) => ({ ...state, ...newState, __isExecuting__: true })] *)
Definition opt_reducer (state : OptState) (newState : gmap string V) : OptState :=
  mkOptState (delete "__isExecuting__" (newState ∪ opt_data state)) true.

(** [experimental_useOptimistic(passthrough, reducer)]: the passthrough
    value with the updates still pending applied on top of it. *)
Definition experimental_useOptimistic (passthrough : OptState)
    (reducer : OptState → gmap string V → OptState)
    (pending : list (gmap string V)) : OptState :=
  foldl reducer passthrough pending.

Record UseOptimisticState : Type := mkUseOptimistic {
  uo_response : @HookResponse (gmap string V) Thrown;
  uo_input : option Input;
  uo_literals : nat;
  uo_pending : list (gmap string V);
  uo_cells : option CallbackCells;
}.

Definition useOptimisticAction_initial : UseOptimisticState :=
  mkUseOptimistic (mkObj (Lit 0) emptyResult) None 1 [] None.

Record UseOptimisticReturn : Type := mkUseOptimisticReturn {
  uor_response : @HookResponse (gmap string V) Thrown;
  uor_optimisticData : gmap string V;
  uor_status : HookActionStatus;
}.

Definition useOptimisticAction (initialOptData : gmap string V)
    (cb : option HookCallbacks) (st : UseOptimisticState)
  : UseOptimisticState * UseOptimisticReturn * list (@CallbackCall Input (gmap string V) Thrown) :=
  let optState :=
    experimental_useOptimistic (opt_passthrough initialOptData (uo_response st))
      opt_reducer (uo_pending st) in
  let status := getActionStatus (__isExecuting__ optState) (val (uo_response st)) in
  let '(cells, calls) :=
    useActionCallbacks (uo_response st) (uo_input st) status ResetFn cb (uo_cells st) in
  (mkUseOptimistic (uo_response st) (uo_input st) (uo_literals st)
     (uo_pending st) (Some cells),
   mkUseOptimisticReturn (uo_response st) (opt_data optState) status,
   calls).

(** [execute(input, newOptimisticData)]: [syncState(newOptimisticData)]
    and [setInput(input)]. *)
Definition useOptimisticAction_execute (input : Input)
    (newOptimisticData : gmap string V) (st : UseOptimisticState) : UseOptimisticState :=
  mkUseOptimistic (uo_response st) (Some input) (uo_literals st)
    (uo_pending st ++ [newOptimisticData]) (uo_cells st).

(** The rendering library drops the pending optimistic updates. *)
Definition useOptimisticAction_optimistic_end (st : UseOptimisticState)
  : UseOptimisticState :=
  mkUseOptimistic (uo_response st) (uo_input st) (uo_literals st) [] (uo_cells st).

Definition useOptimisticAction_settled
    (o : Settled Thrown (@HookResponse (gmap string V) Thrown))
    (st : UseOptimisticState) : UseOptimisticState :=
  match o with
  | Fulfilled response =>
      mkUseOptimistic response (uo_input st) (uo_literals st)
        (uo_pending st) (uo_cells st)
  | Rejected e =>
      if isNextRedirectError e || isNextNotFoundError e then st
      else
        mkUseOptimistic
          (mkObj (Lit (uo_literals st)) (fetchError_object e))
          (uo_input st) (S (uo_literals st)) (uo_pending st) (uo_cells st)
  end.

(** [reset()]: [setResponse({})]. *)
Definition useOptimisticAction_reset (st : UseOptimisticState) : UseOptimisticState :=
  mkUseOptimistic (mkObj (Lit (uo_literals st)) emptyResult)
    (uo_input st) (S (uo_literals st)) (uo_pending st) (uo_cells st).

Inductive UseOptimisticEvent : Type :=
| ORender (initialOptData : gmap string V) (cb : option HookCallbacks)
| OExecute (input : Input) (newOptimisticData : gmap string V)
| OOptimisticEnd
| OSettle (o : Settled Thrown (@HookResponse (gmap string V) Thrown))
| OReset.

Definition useOptimisticAction_step (ev : UseOptimisticEvent)
    (st : UseOptimisticState)
  : UseOptimisticState * list (@CallbackCall Input (gmap string V) Thrown) :=
  match ev with
  | ORender init cb =>
      let '(st', _, calls) := useOptimisticAction init cb st in (st', calls)
  | OExecute input d => (useOptimisticAction_execute input d st, [])
  | OOptimisticEnd => (useOptimisticAction_optimistic_end st, [])
  | OSettle o => (useOptimisticAction_settled o st, [])
  | OReset => (useOptimisticAction_reset st, [])
  end.

Fixpoint useOptimisticAction_run (evs : list UseOptimisticEvent)
    (st : UseOptimisticState)
  : UseOptimisticState * list (@CallbackCall Input (gmap string V) Thrown) :=
  match evs with
  | [] => (st, [])
  | ev :: evs' =>
      let '(st1, calls1) := useOptimisticAction_step ev st in
      let '(st2, calls2) := useOptimisticAction_run evs' st1 in
      (st2, calls1 ++ calls2)
  end.

Definition is_OExecute (ev : UseOptimisticEvent) : bool :=
  match ev with OExecute _ _ => true | _ => false end.

End Optimistic.


(** ** Where a failure of the [try] block comes from *)

Section Sources.

Context {Input Parsed Ctx Data W Thrown : Type}.
Context `{!Utils Thrown} `{!JsThrowables Thrown} `{!JsEngine} `{!Empty Ctx}.

Variable createOpts : option (@CreateOpts Ctx Data W Thrown).
Variable schema : @Schema Input Parsed W Thrown.
Variable serverCode : @ServerCode Parsed Ctx Data W Thrown.

(** [e] is thrown by [buildContext] or by the handler, leaving the world
    in [w']. *)
Definition thrown_by_context_or_handler (clientInput : Input) (w : W)
    (e : Thrown) (w' : W) : Prop :=
  ∃ parsed w1,
    safeParse schema clientInput w = (Fulfilled (SafeParseSuccess parsed), w1)
    ∧ ((∃ f, createOpts ≫= buildContext = Some f ∧ f w1 = (Rejected e, w'))
       ∨ (∃ ctx w2 tc,
            await_ctx (Parsed := Parsed) createOpts w1 = (Fulfilled ctx, w2, tc)
            ∧ serverCode parsed ctx w2 = (Rejected e, w'))).

(** [e] is thrown by [flatten()] on the error of a failed parse. *)
Definition thrown_by_flatten (clientInput : Input) (w : W) (e : Thrown) (w' : W)
  : Prop :=
  ∃ error,
    safeParse schema clientInput w = (Fulfilled (SafeParseError error), w')
    ∧ flatten error = Rejected e.

(** [e] is thrown inside the [try] block: by [safeParse], by
    [flatten()], by [buildContext] or by the handler. *)
Definition thrown_in_try (clientInput : Input) (w : W) (e : Thrown) (w' : W) : Prop :=
  safeParse schema clientInput w = (Rejected e, w')
  ∨ thrown_by_context_or_handler clientInput w e w'
  ∨ thrown_by_flatten clientInput w e w'.

End Sources.

(** ** A sample application, used for the examples below *)

Module Sample.

(** Values an application may throw: an [Error] with its message, or any
    other value. *)
Inductive Thrown : Type :=
| JsError (msg : string)
| JsOther (s : string)
| JsUndefined.

#[global] Instance Thrown_eq_dec : EqDecision Thrown.
Proof. solve_decision. Defined.

#[global] Instance utils : Utils Thrown := {|
  isError e := match e with JsError _ => true | _ => false end;
  isNextRedirectError e := bool_decide (e = JsError "NEXT_REDIRECT");
  isNextNotFoundError e := bool_decide (e = JsError "NEXT_NOT_FOUND");
  DEFAULT_SERVER_ERROR := "Something went wrong while executing the operation";
  errorMessage e := match e with JsError m => m | _ => "" end;
|}.

#[global] Instance throwables : JsThrowables Thrown := {|
  is_undefined e := match e with JsUndefined => true | _ => false end;
  typeError := JsError "fieldErrors[sub.path[0]].push is not a function";
|}.

(** Array indices are written in decimal digits. *)
#[global] Instance engine : JsEngine := {| number_to_string n := pretty n |}.

(** The world counts the callbacks that have run. *)
Definition World : Type := nat.

Definition AppContext : Type := gmap string string.

(** The schema accepts the non-negative amounts. *)
Definition schema : @Schema Z Z World Thrown :=
  mkSchema (λ amount w,
    if (0 <=? amount)%Z then (Fulfilled (SafeParseSuccess amount), w)
    else (Fulfilled (SafeParseError
            (mkZodError [mkIssue [PKey "amount"] "Number must be greater than or equal to 0"])), w)).

Definition serverCode : @ServerCode Z AppContext Z World Thrown :=
  λ amount ctx w,
    if (amount =? 0)%Z then (Rejected (JsError "boom"), S w)
    else if (amount =? 1)%Z then (Rejected (JsError "NEXT_REDIRECT"), S w)
    else if (amount =? 2)%Z then (Rejected (JsOther "oops"), S w)
    else (Fulfilled (Some (2 * amount)%Z), S w).

Definition session : AppContext := {[ "user" := "ada" ]}.

Definition opts_session : @CreateOpts AppContext Z World Thrown :=
  mkOpts (Some (λ w, (Fulfilled session, S w))) None None.

Definition opts_no_session : @CreateOpts AppContext Z World Thrown :=
  mkOpts (Some (λ w, (Rejected (JsError "no session"), S w))) None None.

Definition opts_logger_down : @CreateOpts AppContext Z World Thrown :=
  mkOpts None None (Some (λ e w, (Rejected (JsError "logger down"), S w))).

Definition onSuccess1 : HookCallbacks := mkCallbacks (Some (UserFn 1)) (Some (UserFn 10)).
Definition onSuccess2 : HookCallbacks := mkCallbacks (Some (UserFn 2)) (Some (UserFn 20)).

Definition succeeded : @HookResponse Z Thrown :=
  mkObj (Ext 0) (mkResult (Some 14%Z) None None None).

(** A reset between an [execute] call and the result of that call. *)
Definition reset_before_result : list (@UseActionEvent Z Z Thrown) :=
  [Render (Some onSuccess1);
   Reset;
   Render (Some onSuccess1);
   Settle (Fulfilled succeeded);
   TransitionEnd;
   Render (Some onSuccess1)].

End Sample.

(** ** More sample configurations *)

Module SampleMore.

(** Both hooks written by the application: the logger counts, the mapper
    shows the message of the error. *)
Definition opts_custom : @CreateOpts Sample.AppContext Z Sample.World Sample.Thrown :=
  mkOpts None
    (Some (λ e w, (Fulfilled (only_serverError ("Failed: " +:+ errorMessage e)), S w)))
    (Some (λ e w, (Fulfilled (), S w))).

(** A mapper that resolves to an object with a second key. *)
Definition opts_two_keys : @CreateOpts Sample.AppContext Z Sample.World Sample.Thrown :=
  mkOpts None
    (Some (λ e w, (Fulfilled (mkReturned "Failed" (Some 0%Z) None None), S w)))
    None.

(** A handler that returns nothing. *)
Definition serverCode_void : @ServerCode Z Sample.AppContext Z Sample.World Sample.Thrown :=
  λ amount ctx w, (Fulfilled None, S w).

(** A schema whose parse fails with an issue filed under [toString], a
    member of [Object.prototype]: an object schema with a field of that
    name does so, and so does a refinement that reports its issue at the
    path [["toString"]]. *)
Definition schema_toString : @Schema Z Z Sample.World Sample.Thrown :=
  mkSchema (λ amount w,
    (Fulfilled (SafeParseError
       (mkZodError [mkIssue [PKey "toString"] "Expected string, received function"])), w)).

(** A hook instance that has rendered once, with both callbacks. *)
Definition mounted : @UseActionState Z Z Sample.Thrown :=
  fst (useAction_step (Render (Some Sample.onSuccess1)) useAction_initial).

(** Optimistic data: a cart with a count and a note. *)
Definition cart : gmap string Z := {[ "count" := 1%Z; "note" := 5%Z ]}.

Definition cart_update : gmap string Z := {[ "count" := 2%Z ]}.

Definition optimistic_mounted : @UseOptimisticState Z Z Sample.Thrown :=
  fst (useOptimisticAction_step (ORender cart (Some Sample.onSuccess1))
         useOptimisticAction_initial).

(** The server confirms a count of three. *)
Definition confirmed : @HookResponse (gmap string Z) Sample.Thrown :=
  mkObj (Ext 0) (mkResult (Some {[ "count" := 3%Z ]}) None None None).

Definition optimistic_confirmed : @UseOptimisticState Z Z Sample.Thrown :=
  useOptimisticAction_settled (Fulfilled confirmed) optimistic_mounted.

(** A call is in flight and its response has already arrived. *)
Definition answered_in_flight : @UseActionState Z Z Sample.Thrown :=
  useAction_settled (Fulfilled Sample.succeeded) (useAction_execute 7%Z mounted).

(** The transition of a call has ended, its promise has not settled. *)
Definition awaiting : @UseActionState Z Z Sample.Thrown :=
  useAction_transition_end (useAction_execute 7%Z mounted).

End SampleMore.

(** ** Proof automation *)

(** Unfolds the control operators and splits on what the callbacks do. *)
Ltac run_async :=
  unfold actionBuilder, try_catch, action_try, action_catch, await_ctx,
    resolved_handleServerErrorLog, resolved_handleReturnedServerError,
    bind, call, invoke, settled, emit, ret, throw in *;
  repeat (simplify_eq/=; try case_match).

(** Splits on which options are configured. *)
Ltac split_opts opts :=
  destruct opts as [[[?|] [?|] [?|]]|]; simpl in *.

(** * Properties of the schema collaborator *)

Section FlattenFacts.

Context `{!JsEngine} {Thrown : Type} `{!JsThrowables Thrown}.

Lemma flatten_issue_plain (acc : Flattened) (sub : ZodIssue) :
  (∀ k, issue_field sub = Some k → inherited k = false) →
  ∃ acc',
    flatten_issue (Thrown := Thrown) acc sub = Fulfilled acc'
    ∧ ∀ k, fieldErrors acc' !! k =
           if decide (issue_field sub = Some k)
           then Some (default [] (fieldErrors acc !! k) ++ [message sub])
           else fieldErrors acc !! k.
Proof.
  intros Hplain. unfold flatten_issue.
  destruct (path sub) as [|seg rest] eqn:Hpath.
  - eexists. split; [done|]. intros k. rewrite decide_False; [done|].
    unfold issue_field. by rewrite Hpath.
  - assert (issue_field sub = Some (property_key seg)) as Hf
      by (unfold issue_field; by rewrite Hpath).
    simpl. rewrite (Hplain _ Hf). eexists. split; [done|]. intros k. simpl.
    destruct (decide (issue_field sub = Some k)) as [Hk|Hk].
    + rewrite Hf in Hk. simplify_eq. by rewrite lookup_insert_eq.
    + rewrite lookup_insert_ne; [done|]. intros <-. by apply Hk.
Qed.

Lemma flatten_issue_rejected (acc : Flattened) (sub : ZodIssue) (e : Thrown) :
  flatten_issue acc sub = Rejected e ↔
  e = typeError ∧ ∃ k, issue_field sub = Some k ∧ inherited k = true.
Proof.
  unfold flatten_issue, issue_field.
  destruct (path sub) as [|seg rest]; simpl.
  - split; [done|]. by intros (_ & k & ? & _).
  - destruct (inherited (property_key seg)) eqn:Hin; split.
    + intros; simplify_eq. eauto.
    + by intros (-> & _).
    + done.
    + intros (_ & k & ? & ?); simplify_eq. congruence.
Qed.

Lemma flatten_from_plain (l : list ZodIssue) (acc : Flattened) :
  plain_fields l →
  ∃ fl,
    flatten_from (Thrown := Thrown) acc l = Fulfilled fl
    ∧ ∀ k, fieldErrors fl !! k =
           match field_messages k l with
           | [] => fieldErrors acc !! k
           | ms => Some (default [] (fieldErrors acc !! k) ++ ms)
           end.
Proof.
  revert acc. induction l as [|sub l IH]; intros acc Hplain; simpl.
  - by exists acc.
  - destruct (flatten_issue_plain acc sub) as (acc' & -> & Hacc').
    { intros k. apply Hplain. left. }
    destruct (IH acc') as (fl & -> & Hfl).
    { intros sub' k ?. apply Hplain. by right. }
    exists fl. split; [done|]. intros k. rewrite Hfl, Hacc'.
    unfold field_messages. rewrite filter_cons.
    destruct (decide (issue_field sub = Some k)); simpl; [|done].
    change (list_fmap ZodIssue string message ?x) with (message <$> x).
    destruct (message <$> filter _ l); [done|].
    by rewrite <- app_assoc.
Qed.

(** On issues filed under plain names [flatten()] returns, and a field
    maps to the messages of its issues, in issue order. *)
Lemma flatten_plain (error : ZodError) :
  plain_fields (issues error) →
  ∃ fl,
    flatten (Thrown := Thrown) error = Fulfilled fl
    ∧ ∀ k, fieldErrors fl !! k =
           match field_messages k (issues error) with
           | [] => None
           | ms => Some ms
           end.
Proof.
  intros Hplain. unfold flatten.
  destruct (flatten_from_plain (issues error) (mkFlattened [] ∅) Hplain)
    as (fl & -> & Hfl).
  exists fl. split; [done|]. intros k. rewrite Hfl. simpl.
  rewrite lookup_empty. by destruct (field_messages k (issues error)).
Qed.

(** As soon as one issue is filed under an inherited name [flatten()]
    throws the [TypeError], and it throws nothing else. *)
Lemma flatten_from_inherited (l : list ZodIssue) (acc : Flattened)
    (sub : ZodIssue) (k : string) :
  sub ∈ l → issue_field sub = Some k → inherited k = true →
  flatten_from (Thrown := Thrown) acc l = Rejected typeError.
Proof.
  revert acc. induction l as [|sub' l IH]; intros acc Hin Hk Hinh.
  - by apply not_elem_of_nil in Hin.
  - simpl. destruct (flatten_issue acc sub') as [acc'|e] eqn:Hissue.
    + apply elem_of_cons in Hin as [->|Hin]; [|by apply IH].
      assert (flatten_issue (Thrown := Thrown) acc sub' = Rejected typeError)
        as Hrej by (apply flatten_issue_rejected; eauto).
      congruence.
    + by apply flatten_issue_rejected in Hissue as [-> _].
Qed.

Lemma flatten_from_rejected (l : list ZodIssue) (acc : Flattened) (e : Thrown) :
  flatten_from acc l = Rejected e →
  e = typeError
  ∧ ∃ sub k, sub ∈ l ∧ issue_field sub = Some k ∧ inherited k = true.
Proof.
  revert acc. induction l as [|sub l IH]; intros acc; simpl; [done|].
  destruct (flatten_issue acc sub) as [acc'|e'] eqn:Hissue.
  - intros (-> & sub' & k & ? & ? & ?)%IH. split; [done|].
    exists sub', k. split; [by right|done].
  - intros; simplify_eq.
    apply flatten_issue_rejected in Hissue as (-> & k & ? & ?).
    split; [done|]. exists sub, k. split; [left|done].
Qed.

Lemma field_messages_nil (k : string) (l : list ZodIssue) :
  field_messages k l = [] ↔ ¬ ∃ sub, sub ∈ l ∧ issue_field sub = Some k.
Proof.
  unfold field_messages. split.
  - intros Hnil (sub & Hin & Hk). apply fmap_nil_inv in Hnil.
    assert (sub ∈ filter (λ sub, issue_field sub = Some k) l) as Hf
      by (apply list_elem_of_filter; done).
    rewrite Hnil in Hf. by apply not_elem_of_nil in Hf.
  - intros Hno. destruct (filter _ l) as [|sub f] eqn:Hf; [done|].
    exfalso. apply Hno. exists sub.
    assert (sub ∈ filter (λ sub, issue_field sub = Some k) l) as Hin
      by (rewrite Hf; left).
    apply list_elem_of_filter in Hin. tauto.
Qed.

Lemma field_messages_cons (k m : string) (ms : list string) (l : list ZodIssue) :
  field_messages k l = m :: ms → ∃ sub, sub ∈ l ∧ issue_field sub = Some k.
Proof.
  unfold field_messages.
  destruct (filter (λ sub, issue_field sub = Some k) l) as [|sub f] eqn:Hf;
    [done|]. intros _. exists sub.
  assert (sub ∈ filter (λ sub, issue_field sub = Some k) l) as Hin
    by (rewrite Hf; left).
  apply list_elem_of_filter in Hin. tauto.
Qed.

(** The message of an issue is among the messages of its field. *)
Lemma field_messages_elem (k : string) (l : list ZodIssue) (sub : ZodIssue) :
  sub ∈ l → issue_field sub = Some k → message sub ∈ field_messages k l.
Proof.
  intros Hin Hk. unfold field_messages. apply list_elem_of_fmap_2.
  by apply list_elem_of_filter.
Qed.

End FlattenFacts.

(** * Properties of the action builder *)

Section ServerFacts.

Context {Input Parsed Ctx Data W Thrown : Type}.
Context `{!Utils Thrown} `{!JsThrowables Thrown} `{!JsEngine} `{!Empty Ctx}.

Variable createOpts : option (@CreateOpts Ctx Data W Thrown).
Variable schema : @Schema Input Parsed W Thrown.
Variable serverCode : @ServerCode Parsed Ctx Data W Thrown.

(** The context handed to the handler is what [buildContext] resolved
    to, or the empty object when [buildContext] is not configured. *)
Lemma await_ctx_fulfilled (w1 w2 : W) (ctx : Ctx) (tc : list Event) :
  await_ctx (Parsed := Parsed) createOpts w1 = (Fulfilled ctx, w2, tc) →
  (createOpts ≫= buildContext = None ∧ ctx = ∅ ∧ w2 = w1 ∧ tc = [])
  ∨ (∃ f, createOpts ≫= buildContext = Some f
          ∧ f w1 = (Fulfilled ctx, w2) ∧ tc = [Call_buildContext]).
Proof.
  intros Hctx. split_opts createOpts; run_async; eauto 10.
Qed.

Lemma await_ctx_rejected (w1 w2 : W) (e : Thrown) (tc : list Event) :
  await_ctx (Parsed := Parsed) createOpts w1 = (Rejected e, w2, tc) ↔
  ∃ f, createOpts ≫= buildContext = Some f
       ∧ f w1 = (Rejected e, w2) ∧ tc = [Call_buildContext].
Proof.
  split.
  - intros Hctx. split_opts createOpts; run_async; eauto 10.
  - intros (f & Hopt & Hf & ->).
    split_opts createOpts; simplify_eq; unfold await_ctx, call; simpl;
      by rewrite Hf.
Qed.

(** The [try] block fails when one of its calls throws, and then
    neither hook has been called. *)
Lemma action_try_rejected (clientInput : Input) (w w' : W) (e : Thrown) :
  thrown_in_try createOpts schema serverCode clientInput w e w' →
  ∃ t, action_try createOpts schema serverCode clientInput w = (Rejected e, w', t)
       ∧ log_calls t = [] ∧ mapper_calls t = [].
Proof.
  intros [Hparse|[(parsed & w1 & Hparse &
                   [(f & Hf & Hthrow)|(ctx & w2 & tc & Hctx & Hthrow)])
                 |(error & Hparse & Hflatten)]].
  - exists []. unfold action_try, bind, invoke. by rewrite Hparse.
  - exists [Call_buildContext].
    assert (await_ctx (Parsed := Parsed) createOpts w1
            = (Rejected e, w', [Call_buildContext])) as Hctx
      by (apply await_ctx_rejected; eauto).
    unfold action_try, bind, invoke. by rewrite Hparse, Hctx.
  - exists (tc ++ [Call_serverCode parsed ctx]).
    apply await_ctx_fulfilled in Hctx as Hshape.
    unfold action_try, bind, invoke, call, ret. rewrite Hparse, Hctx, Hthrow.
    destruct Hshape as [(_ & _ & _ & ->)|(f & _ & _ & ->)]; done.
  - exists []. unfold action_try, bind, invoke, settled.
    by rewrite Hparse, Hflatten.
Qed.

Lemma action_try_rejected_inv (clientInput : Input) (w w' : W) (e : Thrown)
    (t : list Event) :
  action_try createOpts schema serverCode clientInput w = (Rejected e, w', t) →
  thrown_in_try createOpts schema serverCode clientInput w e w'.
Proof.
  unfold action_try, bind, invoke, call, settled, ret, thrown_in_try,
    thrown_by_context_or_handler, thrown_by_flatten.
  destruct (safeParse schema clientInput w) as [[[parsed|error]|e0] w1] eqn:Hparse;
    simpl; [| |intros; simplify_eq; by left].
  - destruct (await_ctx createOpts w1) as [[[ctx|e1] w2] tc] eqn:Hctx; simpl.
    + destruct (serverCode parsed ctx w2) as [[d|e2] w3] eqn:Hcode; simpl; [done|].
      intros; simplify_eq. right. left. exists parsed, w1. split; [done|].
      right. by exists ctx, w2, tc.
    + intros; simplify_eq. right. left. exists parsed, w1. split; [done|].
      left. apply await_ctx_rejected in Hctx as (f & ? & ? & ?). by exists f.
  - destruct (flatten error) as [fl|e1] eqn:Hflatten; simpl; [done|].
    intros; simplify_eq. right. right. by exists error.
Qed.

(** A result the [try] block returns has the data key only, holding
    what the handler returned, or the validation error only. *)
Lemma action_try_fulfilled (clientInput : Input) (w w' : W)
    (r : ActionResult Data Thrown) (t : list Event) :
  action_try createOpts schema serverCode clientInput w = (Fulfilled r, w', t) →
  (∃ d : option Data, r = mkResult d None None None)
  ∨ (∃ fe, r = mkResult None (Some fe) None None).
Proof. intros Htry. split_opts createOpts; run_async; eauto. Qed.

(** A result the [catch] block returns has the server error only,
    unless it is the object a custom mapper resolved to. *)
Lemma action_catch_fulfilled (e : Thrown) (w w' : W)
    (r : ActionResult Data Thrown) (t : list (@Event Parsed Ctx Thrown)) :
  action_catch createOpts e w = (Fulfilled r, w', t) →
  (∃ s, r = mkResult None None (Some s) None)
  ∨ (∃ g w1, createOpts ≫= handleReturnedServerError = Some g
             ∧ ∃ ro, g e w1 = (Fulfilled ro, w') ∧ r = returned_object ro).
Proof.
  intros Hcatch. split_opts createOpts; run_async;
    first [ by left; eexists | right; eexists _, _; split; [done|]; by eexists ].
Qed.

(** The [catch] block never calls the handler or [buildContext]. *)
Lemma action_catch_calls (e : Thrown) (w w' : W)
    (r : Settled Thrown (ActionResult Data Thrown))
    (t : list (@Event Parsed Ctx Thrown)) :
  action_catch createOpts e w = (r, w', t) →
  serverCode_calls t = [] ∧ buildContext_calls t = 0.
Proof. intros Hcatch. split_opts createOpts; run_async; done. Qed.

(** What the [catch] block does with a navigation signal. *)
Lemma action_catch_signal (e : Thrown) (w : W) :
  isNavigationSignal e = true →
  action_catch (Parsed := Parsed) (Ctx := Ctx) (Data := Data) createOpts e w
  = (Rejected e, w, []).
Proof. unfold isNavigationSignal, action_catch, throw. by intros ->. Qed.




(** How the built action combines the two blocks. *)
Lemma actionBuilder_try_fulfilled (clientInput : Input) (w w' : W)
    (r : ActionResult Data Thrown) (t : list Event) :
  action_try createOpts schema serverCode clientInput w = (Fulfilled r, w', t) →
  actionBuilder createOpts schema serverCode clientInput w = (Fulfilled r, w', t).
Proof. unfold actionBuilder, try_catch. by intros ->. Qed.

Lemma actionBuilder_try_rejected (clientInput : Input) (w w1 w2 : W)
    (e : Thrown) (r : Settled Thrown (ActionResult Data Thrown))
    (t1 t2 : list Event) :
  action_try createOpts schema serverCode clientInput w = (Rejected e, w1, t1) →
  action_catch createOpts e w1 = (r, w2, t2) →
  actionBuilder createOpts schema serverCode clientInput w = (r, w2, t1 ++ t2).
Proof. unfold actionBuilder, try_catch. by intros -> ->. Qed.

(** The [try] block once parsing and context construction succeeded. *)
Lemma action_try_handler (clientInput : Input) (w w1 w2 : W) (parsed : Parsed)
    (ctx : Ctx) (tc : list Event) :
  safeParse schema clientInput w = (Fulfilled (SafeParseSuccess parsed), w1) →
  await_ctx createOpts w1 = (Fulfilled ctx, w2, tc) →
  action_try createOpts schema serverCode clientInput w
  = match serverCode parsed ctx w2 with
    | (Fulfilled d, w3) =>
        (Fulfilled (mkResult d None None None), w3,
         tc ++ [Call_serverCode parsed ctx])
    | (Rejected e, w3) => (Rejected e, w3, tc ++ [Call_serverCode parsed ctx])
    end.
Proof.
  intros Hparse Hctx. unfold action_try, bind, invoke, call, ret.
  rewrite Hparse, Hctx. by destruct (serverCode parsed ctx w2) as [[d|e] w3].
Qed.

Lemma await_ctx_calls (w1 w2 : W) (ctx : Ctx) (tc : list Event) :
  await_ctx (Parsed := Parsed) createOpts w1 = (Fulfilled ctx, w2, tc) →
  serverCode_calls tc = [] ∧ log_calls tc = [] ∧ mapper_calls tc = [].
Proof.
  intros Hctx. apply await_ctx_fulfilled in Hctx
    as [(_ & _ & _ & ->)|(f & _ & _ & ->)]; done.
Qed.

(** The run of the built action on an input that fails parsing, when no
    issue is filed under an inherited name. *)
Lemma parse_failure_plain_run (clientInput : Input) (w w1 : W) (error : ZodError) :
  safeParse schema clientInput w = (Fulfilled (SafeParseError error), w1) →
  plain_fields (issues error) →
  ∃ fl,
    flatten (Thrown := Thrown) error = Fulfilled fl
    ∧ actionBuilder createOpts schema serverCode clientInput w
      = (Fulfilled (mkResult None (Some (fieldErrors fl)) None None), w1, []).
Proof.
  intros Hparse Hplain.
  destruct (flatten_plain (Thrown := Thrown) error Hplain) as (fl & Hfl & _).
  exists fl. split; [done|]. apply actionBuilder_try_fulfilled.
  unfold action_try, bind, invoke, settled, ret. by rewrite Hparse, Hfl.
Qed.

(** The run of the built action on an input that fails parsing with an
    issue filed under an inherited name: [flatten()] throws inside the
    [try] block and the [catch] block takes over. *)
Lemma parse_failure_inherited_run (clientInput : Input) (w w1 : W)
    (error : ZodError) (sub : ZodIssue) (k : string) :
  safeParse schema clientInput w = (Fulfilled (SafeParseError error), w1) →
  sub ∈ issues error → issue_field sub = Some k → inherited k = true →
  thrown_in_try createOpts schema serverCode clientInput w typeError w1
  ∧ actionBuilder createOpts schema serverCode clientInput w
    = action_catch createOpts typeError w1.
Proof.
  intros Hparse Hin Hk Hinh.
  assert (flatten (Thrown := Thrown) error = Rejected typeError) as Hfl
    by (by eapply flatten_from_inherited).
  split.
  - right. right. by exists error.
  - unfold actionBuilder, try_catch, action_try, bind, invoke, settled.
    rewrite Hparse, Hfl.
    by destruct (action_catch createOpts typeError w1) as [[r w2] t2].
Qed.

(** C2 (amended). When [clientInput] passes schema parsing and the
    context is constructed ([buildContext] is absent or resolves), the
    handler is invoked exactly once, whatever it then does, with the
    parsed input and the context: the empty object when [buildContext] is
    absent, what [buildContext] resolved to otherwise.  If the handler
    returns, the result has the [data] key only, holding the handler's
    return value: the [data] variant is populated when that value is
    defined, and no variant is populated when the handler returned
    [undefined]. *)
Theorem C2_handler_called_once (clientInput : Input) (w w1 w2 : W)
    (parsed : Parsed) (ctx : Ctx) (tc : list Event) :
  safeParse schema clientInput w = (Fulfilled (SafeParseSuccess parsed), w1) →
  await_ctx createOpts w1 = (Fulfilled ctx, w2, tc) →
  (∀ r wf t, actionBuilder createOpts schema serverCode clientInput w = (r, wf, t) →
             serverCode_calls t = [(parsed, ctx)])
  ∧ (createOpts ≫= buildContext = None → ctx = ∅)
  ∧ (∀ f, createOpts ≫= buildContext = Some f → f w1 = (Fulfilled ctx, w2))
  ∧ (∀ d w3, serverCode parsed ctx w2 = (Fulfilled d, w3) →
             actionBuilder createOpts schema serverCode clientInput w
             = (Fulfilled (mkResult d None None None), w3,
                tc ++ [Call_serverCode parsed ctx])
             ∧ populated (mkResult (Thrown := Thrown) d None None None)
               = defined d).
Proof.
  intros Hparse Hctx.
  pose proof (action_try_handler _ _ _ _ _ _ _ Hparse Hctx) as Htry.
  pose proof (await_ctx_calls _ _ _ _ Hctx) as (Hnone & _ & _).
  pose proof (await_ctx_fulfilled _ _ _ _ Hctx) as Hshape.
  split; [|split; [|split]].
  - intros r wf t. unfold actionBuilder, try_catch. rewrite Htry.
    destruct (serverCode parsed ctx w2) as [[d|e] w3].
    + intros; simplify_eq. unfold serverCode_calls in *.
      by rewrite omap_app, Hnone.
    + destruct (action_catch createOpts e w3) as [[r' w4] t2] eqn:Hcatch.
      apply action_catch_calls in Hcatch as [Hcatch _].
      intros; simplify_eq. unfold serverCode_calls in *.
      by rewrite !omap_app, Hnone, Hcatch.
  - intros Hopt. destruct Hshape as [(_ & -> & _)|(f & Hf & _)]; [done|].
    clear Htry Hctx. split_opts createOpts; simplify_eq.
  - intros f Hopt. clear Htry Hctx.
    destruct Hshape as [(Hno & _)|(f' & Hf & Hres & _)];
      split_opts createOpts; by simplify_eq.
  - intros d w3 Hcode. split; [|by destruct d].
    apply actionBuilder_try_fulfilled. by rewrite Htry, Hcode.
Qed.

(** C3. A navigation signal thrown by [buildContext] or by the handler
    makes the promise of the built action reject with that very value,
    and neither the logging hook nor the server-error mapper is called. *)
Theorem C3_signal_rethrown (clientInput : Input) (w w' : W) (e : Thrown) :
  thrown_by_context_or_handler createOpts schema serverCode clientInput w e w' →
  isNavigationSignal e = true →
  ∃ t, actionBuilder createOpts schema serverCode clientInput w = (Rejected e, w', t)
       ∧ log_calls t = [] ∧ mapper_calls t = [].
Proof.
  intros Hthrown Hnav.
  destruct (action_try_rejected clientInput w w' e) as (t & Htry & Hlog & Hmap);
    [by right; left|].
  exists t. split; [|done].
  rewrite <- (app_nil_r t) at 1.
  eapply actionBuilder_try_rejected; [done|]. by apply action_catch_signal.
Qed.

(** C4. When the handler throws a proper [Error] (one that is not a
    navigation signal, which C3 covers) and neither
    [handleServerErrorLog] nor [handleReturnedServerError] is configured,
    the built action resolves to the generic server error, and the
    default logging hook is called exactly once, with the thrown error,
    before the mapper and the return. *)
Theorem C4_default_hooks (clientInput : Input) (w w1 w2 w3 : W)
    (parsed : Parsed) (ctx : Ctx) (tc : list Event) (e : Thrown) :
  createOpts ≫= handleServerErrorLog = None →
  createOpts ≫= handleReturnedServerError = None →
  safeParse schema clientInput w = (Fulfilled (SafeParseSuccess parsed), w1) →
  await_ctx createOpts w1 = (Fulfilled ctx, w2, tc) →
  serverCode parsed ctx w2 = (Rejected e, w3) →
  isError e = true →
  isNavigationSignal e = false →
  ∃ t,
    actionBuilder createOpts schema serverCode clientInput w
    = (Fulfilled (mkResult None None (Some DEFAULT_SERVER_ERROR) None), w3, t)
    ∧ t = tc ++ [Call_serverCode parsed ctx;
                 Call_handleServerErrorLog e;
                 Console_error "Action error:" (errorMessage e);
                 Call_handleReturnedServerError e]
    ∧ log_calls t = [e].
Proof.
  intros Hlog Hmap Hparse Hctx Hcode Herr Hnav.
  pose proof (action_try_handler _ _ _ _ _ _ _ Hparse Hctx) as Htry.
  pose proof (await_ctx_calls _ _ _ _ Hctx) as (_ & Hnolog & _).
  rewrite Hcode in Htry. eexists. split; [|split; [reflexivity|]].
  - replace (tc ++ _) with ((tc ++ [Call_serverCode parsed ctx]) ++
      [Call_handleServerErrorLog e;
       Console_error "Action error:" (errorMessage e);
       Call_handleReturnedServerError e]) by (by rewrite <- app_assoc).
    eapply actionBuilder_try_rejected; [done|].
    unfold isNavigationSignal in Hnav.
    unfold action_catch, resolved_handleServerErrorLog,
      resolved_handleReturnedServerError.
    by rewrite Hnav, Herr, Hlog, Hmap.
  - unfold log_calls in *. by rewrite omap_app, Hnolog.
Qed.

(** C5. A value thrown inside the [try] block that is neither a
    navigation signal nor a proper [Error] makes the built action write
    one diagnostic warning and resolve to the generic server error;
    neither [handleServerErrorLog] nor [handleReturnedServerError] is
    called, and the thrown value is not part of the result. *)
Theorem C5_unrecognised_value (clientInput : Input) (w w' : W) (e : Thrown) :
  thrown_in_try createOpts schema serverCode clientInput w e w' →
  isNavigationSignal e = false →
  isError e = false →
  ∃ t0 t,
    actionBuilder createOpts schema serverCode clientInput w
    = (Fulfilled (mkResult None None (Some DEFAULT_SERVER_ERROR) None), w', t)
    ∧ t = t0 ++ [Console_warn
                   "Could not handle server error. Not an instance of Error: " e]
    ∧ log_calls t = [] ∧ mapper_calls t = [].
Proof.
  intros Hthrown Hnav Herr.
  destruct (action_try_rejected clientInput w w' e) as (t0 & Htry & Hlog & Hmap);
    [done|].
  exists t0. eexists. split; [|split; [reflexivity|]].
  - eapply actionBuilder_try_rejected; [done|].
    unfold isNavigationSignal in Hnav. unfold action_catch, bind, emit, ret.
    by rewrite Hnav, Herr.
  - unfold log_calls, mapper_calls in *. by rewrite !omap_app, Hlog, Hmap.
Qed.


(** C8 (amended). Every result the built action resolves to has at most
    one of the four variants populated and never the [fetchError]
    variant, unless it is the object a custom
    [handleReturnedServerError] resolved to: that object is returned as
    it is, with its [serverError] and whatever other keys the mapper put
    in it.  In particular every result has at most one variant and no
    [fetchError] when [handleReturnedServerError] is not configured. *)
Theorem C8_one_variant (clientInput : Input) (w wf : W)
    (r : ActionResult Data Thrown) (t : list Event) :
  actionBuilder createOpts schema serverCode clientInput w = (Fulfilled r, wf, t) →
  ((populated r ≤ 1 ∧ fetchError r = None)
   ∨ (∃ g e w1 w2 ro,
        createOpts ≫= handleReturnedServerError = Some g
        ∧ thrown_in_try createOpts schema serverCode clientInput w e w1
        ∧ g e w2 = (Fulfilled ro, wf)
        ∧ r = returned_object ro))
  ∧ (createOpts ≫= handleReturnedServerError = None →
     populated r ≤ 1 ∧ fetchError r = None).
Proof.
  unfold actionBuilder, try_catch.
  destruct (action_try createOpts schema serverCode clientInput w)
    as [[[r0|e0] w1] t1] eqn:Htry.
  - intros; simplify_eq.
    assert (populated r ≤ 1 ∧ fetchError r = None) as Hone.
    { apply action_try_fulfilled in Htry as [[[d|] ->]|[fe ->]];
        unfold populated; simpl; split; (lia || done). }
    split; [by left|done].
  - destruct (action_catch createOpts e0 w1) as [[r1 w2] t2] eqn:Hcatch.
    intros; simplify_eq. apply action_try_rejected_inv in Htry.
    apply action_catch_fulfilled in Hcatch
      as [[s ->]|(g & w3 & Hg & ro & Hro & ->)].
    + split; [left|intros _]; by compute.
    + split; [right; by exists g, e0, w1, w3, ro|].
      intros Hnone. clear Htry Hro. split_opts createOpts; simplify_eq.
Qed.

End ServerFacts.

(** ** The properties on the sample application *)

(** C1 (code bug). The source says of the built action that, if the
    input fails the schema parsing, it returns a [validationError] object
    with all the invalid fields.  On a parse that fails with an issue
    filed under [toString], a name every object literal inherits,
    [flatten()] throws inside the [try] block: with the default hooks the
    action logs the [TypeError] and resolves to the generic server error,
    and the result has no [validationError]. *)
Theorem C1_inherited_field_is_a_server_error :
  safeParse SampleMore.schema_toString 5%Z 0
  = (Fulfilled (SafeParseError
       (mkZodError [mkIssue [PKey "toString"] "Expected string, received function"])),
     0)
  ∧ actionBuilder None SampleMore.schema_toString Sample.serverCode 5%Z 0
    = (Fulfilled (mkResult None None (Some DEFAULT_SERVER_ERROR) None), 0,
       [Call_handleServerErrorLog
          (Sample.JsError "fieldErrors[sub.path[0]].push is not a function");
        Console_error "Action error:"
          "fieldErrors[sub.path[0]].push is not a function";
        Call_handleReturnedServerError
          (Sample.JsError "fieldErrors[sub.path[0]].push is not a function")]).
Proof. split; [reflexivity|by vm_compute]. Qed.

(** The claim C2 as the specification words it fails when
    [buildContext] throws: the input passes the schema and the handler is
    not invoked.  It also fails when the handler returns [undefined]: the
    handler is invoked and returns, and the result has no variant
    populated. *)
Lemma C2_counterexample :
  safeParse Sample.schema 7%Z 0 = (Fulfilled (SafeParseSuccess 7%Z), 0)
  ∧ actionBuilder (Some Sample.opts_no_session) Sample.schema Sample.serverCode 7%Z 0
    = (Fulfilled (mkResult None None (Some DEFAULT_SERVER_ERROR) None), 1,
       [Call_buildContext;
        Call_handleServerErrorLog (Sample.JsError "no session");
        Console_error "Action error:" "no session";
        Call_handleReturnedServerError (Sample.JsError "no session")])
  ∧ length (serverCode_calls (Parsed := Z) (Ctx := Sample.AppContext)
      [Call_buildContext;
       Call_handleServerErrorLog (Sample.JsError "no session");
       Console_error "Action error:" "no session";
       Call_handleReturnedServerError (Sample.JsError "no session")]) ≠ 1
  ∧ actionBuilder None Sample.schema SampleMore.serverCode_void 7%Z 0
    = (Fulfilled (mkResult None None None None), 1, [Call_serverCode 7%Z ∅])
  ∧ populated (mkResult (Data := Z) (Thrown := Sample.Thrown) None None None None)
    = 0.
Proof.
  split; [reflexivity|]. split; [by vm_compute|]. split; [by vm_compute|].
  split; [by vm_compute|reflexivity].
Qed.

Lemma C2_witness :
  actionBuilder (Some Sample.opts_session) Sample.schema Sample.serverCode 7%Z 0
  = (Fulfilled (mkResult (Some 14%Z) None None None), 2,
     [Call_buildContext] ++ [Call_serverCode 7%Z Sample.session])
  ∧ populated (mkResult (Thrown := Sample.Thrown) (Some 14%Z) None None None)
    = defined (Some 14%Z).
Proof.
  apply (C2_handler_called_once (Some Sample.opts_session) Sample.schema
           Sample.serverCode 7%Z 0 0 1 7%Z Sample.session [Call_buildContext]);
    reflexivity.
Defined.

Lemma C3_witness :
  ∃ t, actionBuilder None Sample.schema Sample.serverCode 1%Z 0
       = (Rejected (Sample.JsError "NEXT_REDIRECT"), 1, t)
       ∧ log_calls t = [] ∧ mapper_calls t = [].
Proof.
  apply (C3_signal_rethrown None Sample.schema Sample.serverCode 1%Z 0 1
           (Sample.JsError "NEXT_REDIRECT")); [|reflexivity].
  exists 1%Z, 0. split; [reflexivity|].
  right. exists ∅, 0, []. split; reflexivity.
Defined.

Lemma C4_witness :
  ∃ t, actionBuilder None Sample.schema Sample.serverCode 0%Z 0
       = (Fulfilled (mkResult None None (Some DEFAULT_SERVER_ERROR) None), 1, t)
       ∧ t = [] ++ [Call_serverCode 0%Z ∅;
                    Call_handleServerErrorLog (Sample.JsError "boom");
                    Console_error "Action error:"
                      (errorMessage (Sample.JsError "boom"));
                    Call_handleReturnedServerError (Sample.JsError "boom")]
       ∧ log_calls t = [Sample.JsError "boom"].
Proof.
  apply (C4_default_hooks None Sample.schema Sample.serverCode 0%Z 0 0 0 1
           0%Z ∅ [] (Sample.JsError "boom")); reflexivity.
Defined.

Lemma C5_witness :
  ∃ t0 t,
    actionBuilder None Sample.schema Sample.serverCode 2%Z 0
    = (Fulfilled (mkResult None None (Some DEFAULT_SERVER_ERROR) None), 1, t)
    ∧ t = t0 ++ [Console_warn
                   "Could not handle server error. Not an instance of Error: "
                   (Sample.JsOther "oops")]
    ∧ log_calls t = [] ∧ mapper_calls t = [].
Proof.
  apply (C5_unrecognised_value None Sample.schema Sample.serverCode 2%Z 0 1
           (Sample.JsOther "oops")); [|reflexivity|reflexivity].
  right. left. exists 2%Z, 0. split; [reflexivity|].
  right. exists ∅, 0, []. split; reflexivity.
Defined.



(** The claim C8 as the specification words it fails when a custom
    [handleReturnedServerError] resolves to an object with a second key:
    the result has two variants populated. *)
Lemma C8_counterexample :
  actionBuilder (Some SampleMore.opts_two_keys) Sample.schema Sample.serverCode 0%Z 0
  = (Fulfilled (mkResult (Some 0%Z) None (Some "Failed") None), 2,
     [Call_serverCode 0%Z ∅;
      Call_handleServerErrorLog (Sample.JsError "boom");
      Console_error "Action error:" "boom";
      Call_handleReturnedServerError (Sample.JsError "boom")])
  ∧ populated (mkResult (Thrown := Sample.Thrown) (Some 0%Z) None (Some "Failed") None)
    = 2.
Proof. split; [by vm_compute|reflexivity]. Qed.

Lemma C8_witness :
  populated (mkResult (Thrown := Sample.Thrown) (Some 14%Z) None None None) ≤ 1
  ∧ fetchError (mkResult (Thrown := Sample.Thrown) (Some 14%Z) None None None) = None.
Proof.
  apply (proj2 (C8_one_variant None Sample.schema Sample.serverCode 7%Z 0 1 _
                  [Call_serverCode 7%Z ∅] eq_refl)).
  reflexivity.
Defined.

(** * Properties of the client hooks *)

(** C7. The status is a function of [isExecuting] and [response] alone,
    decided in this order: executing when [isExecuting] holds, whatever
    the response; otherwise succeeded when [response.data] is defined;
    otherwise errored when one of [validationError], [serverError],
    [fetchError] is defined; otherwise idle. *)
Theorem C7_status_priority {Data Thrown : Type} (isExecuting : bool)
    (response : ActionResult Data Thrown) :
  (isExecuting = true → getActionStatus isExecuting response = executing)
  ∧ (isExecuting = false → is_Some (data response) →
     getActionStatus isExecuting response = hasSucceded)
  ∧ (isExecuting = false → data response = None →
     is_Some (validationError response) ∨ is_Some (serverError response)
       ∨ is_Some (fetchError response) →
     getActionStatus isExecuting response = hasErrored)
  ∧ (isExecuting = false → data response = None →
     validationError response = None → serverError response = None →
     fetchError response = None →
     getActionStatus isExecuting response = idle).
Proof.
  destruct response as [d ve se fe]. unfold getActionStatus. simpl.
  split; [by intros ->|]. split; [by intros -> [x ->]|].
  split.
  - intros -> -> [[x ->]|[[x ->]|[x ->]]]; simpl; [done| |].
    + by destruct ve.
    + by destruct ve, se.
  - by intros -> -> -> -> ->.
Qed.

Lemma C7_witness :
  getActionStatus true
    (mkResult (Data := Z) (Thrown := Sample.Thrown) (Some 14%Z) None (Some "stale") None)
  = executing.
Proof.
  apply (proj1 (C7_status_priority true
                  (mkResult (Some 14%Z) None (Some "stale") None))).
  reflexivity.
Defined.

Section HookFacts.

Context {Input Data Thrown : Type}.
Context `{!Utils Thrown} `{!JsThrowables Thrown}.

Implicit Types (response : @HookResponse Data Thrown) (input : option Input).
Implicit Types (status : HookActionStatus) (reset : FnRef).
Implicit Types (cb : option HookCallbacks) (c : CallbackCells).

(** The effect calls at most one callback, one of the two it is given,
    with the input it is given. *)
Lemma callbacks_effect_calls (f g : option FnRef) response input status reset
    (x : @CallbackCall Input Data Thrown) :
  x ∈ callbacks_effect f g response input status reset →
  (Some (call_fn x) = f ∨ Some (call_fn x) = g) ∧ call_input x = input.
Proof.
  unfold callbacks_effect. intros Hin.
  repeat case_match; try (by apply not_elem_of_nil in Hin);
    apply list_elem_of_singleton in Hin as ->; simpl; eauto.
Qed.

Lemma callbacks_effect_length (f g : option FnRef) response input status reset :
  length (callbacks_effect (Input := Input) f g response input status reset) ≤ 1.
Proof. unfold callbacks_effect. repeat case_match; simpl; lia. Qed.

(** A render after the first keeps the two refs, whatever [cb] is. *)
Lemma useActionCallbacks_refs response input status reset cb c :
  let cells' := fst (useActionCallbacks response input status reset cb (Some c)) in
  onSuccessRef cells' = onSuccessRef c ∧ onErrorRef cells' = onErrorRef c.
Proof. done. Qed.

Lemma useActionCallbacks_calls response input status reset cb
    (cells : option CallbackCells) (x : @CallbackCall Input Data Thrown) :
  x ∈ snd (useActionCallbacks response input status reset cb cells) →
  call_input x = input
  ∧ ∀ c, cells = Some c →
         Some (call_fn x) = onSuccessRef c ∨ Some (call_fn x) = onErrorRef c.
Proof.
  unfold useActionCallbacks. simpl. intros Hin.
  destruct cells as [c|]; [destruct (bool_decide _)|].
  - apply callbacks_effect_calls in Hin as [Hfn Hinput].
    split; [done|]. by intros ? [= <-].
  - by apply not_elem_of_nil in Hin.
  - apply callbacks_effect_calls in Hin as [Hfn Hinput]. by split.
Qed.

(** Every step of [useAction] other than a render leaves the cells of
    [useActionCallbacks] alone and calls nothing. *)
Lemma useAction_step_cells (ev : UseActionEvent) (st : UseActionState)
    (c : CallbackCells) :
  ua_cells st = Some c →
  ∃ c', ua_cells (fst (useAction_step (Input := Input) (Data := Data) ev st)) = Some c'
        ∧ onSuccessRef c' = onSuccessRef c ∧ onErrorRef c' = onErrorRef c.
Proof.
  intros Hc. destruct ev as [cb|i| |[r|e]|]; simpl; try by eauto.
  - rewrite Hc. simpl. eauto.
  - destruct (isNextRedirectError e || isNextNotFoundError e); simpl; eauto.
Qed.

Lemma useAction_step_calls (ev : UseActionEvent) (st : UseActionState)
    (x : @CallbackCall Input Data Thrown) :
  x ∈ snd (useAction_step ev st) →
  call_input x = ua_input st
  ∧ ∀ c, ua_cells st = Some c →
         Some (call_fn x) = onSuccessRef c ∨ Some (call_fn x) = onErrorRef c.
Proof.
  destruct ev as [cb|i| |o|]; try (by intros ?%not_elem_of_nil).
  intros Hin.
  apply (useActionCallbacks_calls (ua_response st) (ua_input st)
           (getActionStatus (ua_isExecuting st) (val (ua_response st)))
           ResetFn cb (ua_cells st) x).
  exact Hin.
Qed.

Lemma useAction_step_input (ev : UseActionEvent) (st : UseActionState) :
  is_Execute ev = false →
  ua_input (fst (useAction_step (Input := Input) (Data := Data) ev st)) = ua_input st.
Proof.
  destruct ev as [cb|i| |[r|e]|]; simpl; try done.
  intros _. by destruct (isNextRedirectError e || isNextNotFoundError e).
Qed.

(** Over the life of a hook instance, every callback called is one held
    by the two refs. *)
Lemma useAction_run_fns (evs : list UseActionEvent) (st : UseActionState)
    (c : CallbackCells) (x : @CallbackCall Input Data Thrown) :
  ua_cells st = Some c →
  x ∈ snd (useAction_run evs st) →
  Some (call_fn x) = onSuccessRef c ∨ Some (call_fn x) = onErrorRef c.
Proof.
  revert st c. induction evs as [|ev evs IH]; intros st c Hc; simpl.
  - by intros ?%not_elem_of_nil.
  - destruct (useAction_step ev st) as [st1 calls1] eqn:Hstep.
    destruct (useAction_run evs st1) as [st2 calls2] eqn:Hrun. simpl.
    intros [Hin|Hin]%elem_of_app.
    + eapply (useAction_step_calls ev st); [by rewrite Hstep|done].
    + destruct (useAction_step_cells ev st c Hc) as (c' & Hc' & <- & <-).
      rewrite Hstep in Hc'. eapply (IH st1 c' Hc'). by rewrite Hrun.
Qed.

(** As long as [execute] is not called again, every callback called
    receives the stored input. *)
Lemma useAction_run_input (evs : list UseActionEvent) (st : UseActionState)
    (x : @CallbackCall Input Data Thrown) :
  forallb (λ ev, negb (is_Execute ev)) evs = true →
  x ∈ snd (useAction_run evs st) →
  call_input x = ua_input st.
Proof.
  revert st. induction evs as [|ev evs IH]; intros st; simpl.
  - by intros _ ?%not_elem_of_nil.
  - intros [Hev Hevs]%andb_prop. apply negb_true_iff in Hev.
    destruct (useAction_step ev st) as [st1 calls1] eqn:Hstep.
    destruct (useAction_run evs st1) as [st2 calls2] eqn:Hrun. simpl.
    intros [Hin|Hin]%elem_of_app.
    + eapply (useAction_step_calls ev st). by rewrite Hstep.
    + rewrite <- (useAction_step_input ev st Hev), Hstep. simpl.
      apply IH; [done|]. by rewrite Hrun.
Qed.

(** C9 (amended). The callbacks are called by an effect that runs after
    the first render and after each later render in which [status],
    [response] or [reset] is not the value it was in the previous render:
    a render in which none of them changed calls nothing, whatever
    callbacks are passed to it; a render in which the status changed to
    succeeded (errored) calls [onSuccess] ([onError]) exactly once; no
    render calls more than one callback.  The callbacks called are the
    ones passed to the first render: they are kept in two refs that later
    renders never write, so callbacks passed later are never called and
    passing new ones triggers no call. *)
Theorem C9_callbacks_on_change_from_first_render :
  (∀ response input status reset cb c,
     let '(c', calls) :=
       useActionCallbacks (Input := Input) response input status reset cb (Some c) in
     length calls ≤ 1
     ∧ (effectDeps c = (status, ref response, reset) → calls = [])
     ∧ (fst (fst (effectDeps c)) ≠ status →
        (status = hasSucceded → ∀ f, onSuccessRef c = Some f →
           calls = [Call_onSuccess f (data (val response)) input reset])
        ∧ (status = hasErrored → ∀ g, onErrorRef c = Some g →
           calls = [Call_onError g response input reset]))
     ∧ onSuccessRef c' = onSuccessRef c ∧ onErrorRef c' = onErrorRef c
     ∧ useActionCallbacks response input status reset cb (Some c)
       = useActionCallbacks response input status reset None (Some c))
  ∧ (∀ response input status reset cb,
       let c' := fst (useActionCallbacks (Input := Input) response input status reset cb None) in
       onSuccessRef c' = cb ≫= onSuccess ∧ onErrorRef c' = cb ≫= onError
       ∧ length (snd (useActionCallbacks (Input := Input)
                        response input status reset cb None)) ≤ 1)
  ∧ (∀ cb0 (evs : list (@UseActionEvent Input Data Thrown)) x,
       x ∈ snd (useAction_run (Render cb0 :: evs) useAction_initial) →
       Some (call_fn x) = cb0 ≫= onSuccess ∨ Some (call_fn x) = cb0 ≫= onError).
Proof.
  split; [|split].
  - intros response input status reset cb c.
    unfold useActionCallbacks. simpl.
    split; [|split; [|split; [|done]]].
    + destruct (bool_decide _); [apply callbacks_effect_length|simpl; lia].
    + intros Hdeps. by rewrite bool_decide_eq_false_2 by (by intros []).
    + intros Hstatus.
      rewrite bool_decide_eq_true_2
        by (intros Hdeps; apply Hstatus; by rewrite Hdeps).
      unfold callbacks_effect. split.
      * intros -> f ->. by rewrite bool_decide_eq_true_2.
      * intros -> g ->. rewrite bool_decide_eq_false_2 by done.
        rewrite (bool_decide_eq_true_2 (hasErrored = hasErrored)) by done.
        by destruct (onSuccessRef c).
  - intros response input status reset cb. simpl.
    split; [done|]. split; [done|]. apply callbacks_effect_length.
  - intros cb0 evs x. simpl.
    destruct (useAction_run evs _) as [st2 calls2] eqn:Hrun. simpl.
    intros [Hin|Hin]%elem_of_app.
    + by apply callbacks_effect_calls in Hin as [Hfn _].
    + refine (useAction_run_fns evs
                (fst (useAction_step (Render cb0) useAction_initial))
                (mkCells (cb0 ≫= onSuccess) (cb0 ≫= onError) (idle, Lit 0, ResetFn))
                x eq_refl _).
      simpl. by rewrite Hrun.
Qed.

(** The effect also depends on [response]: a render in which only the
    response object changed runs it again. *)
Lemma useActionCallbacks_response_change response input reset cb c g previous :
  effectDeps c = (hasErrored, previous, reset) →
  ref response ≠ previous →
  onSuccessRef c = None →
  onErrorRef c = Some g →
  snd (useActionCallbacks (Input := Input) response input hasErrored reset cb (Some c))
  = [Call_onError g response input reset].
Proof.
  intros Hdeps Href Hs He. unfold useActionCallbacks. simpl.
  rewrite bool_decide_eq_true_2 by (rewrite Hdeps; congruence).
  unfold callbacks_effect. by rewrite Hs, He.
Qed.

End HookFacts.

Section OptimisticFacts.

Context {Input V Thrown : Type}.
Context `{!Utils Thrown} `{!JsThrowables Thrown}.

Lemma useOptimisticAction_step_calls (ev : UseOptimisticEvent)
    (st : UseOptimisticState)
    (x : @CallbackCall Input (gmap string V) Thrown) :
  x ∈ snd (useOptimisticAction_step ev st) →
  call_input x = uo_input st.
Proof.
  destruct ev as [init cb|i d| |o|]; try (by intros ?%not_elem_of_nil).
  intros Hin.
  apply (useActionCallbacks_calls (uo_response st) (uo_input st)
           (getActionStatus
              (__isExecuting__
                 (experimental_useOptimistic
                    (opt_passthrough init (uo_response st)) opt_reducer
                    (uo_pending st)))
              (val (uo_response st)))
           ResetFn cb (uo_cells st) x).
  exact Hin.
Qed.

Lemma useOptimisticAction_step_input (ev : UseOptimisticEvent)
    (st : UseOptimisticState) :
  is_OExecute ev = false →
  uo_input (fst (useOptimisticAction_step (Input := Input) (V := V) ev st))
  = uo_input st.
Proof.
  destruct ev as [init cb|i d| |[r|e]|]; simpl; try done.
  intros _. by destruct (isNextRedirectError e || isNextNotFoundError e).
Qed.

Lemma useOptimisticAction_run_input (evs : list UseOptimisticEvent)
    (st : UseOptimisticState)
    (x : @CallbackCall Input (gmap string V) Thrown) :
  forallb (λ ev, negb (is_OExecute ev)) evs = true →
  x ∈ snd (useOptimisticAction_run evs st) →
  call_input x = uo_input st.
Proof.
  revert st. induction evs as [|ev evs IH]; intros st; simpl.
  - by intros _ ?%not_elem_of_nil.
  - intros [Hev Hevs]%andb_prop. apply negb_true_iff in Hev.
    destruct (useOptimisticAction_step ev st) as [st1 calls1] eqn:Hstep.
    destruct (useOptimisticAction_run evs st1) as [st2 calls2] eqn:Hrun. simpl.
    intros [Hin|Hin]%elem_of_app.
    + eapply (useOptimisticAction_step_calls ev st). by rewrite Hstep.
    + rewrite <- (useOptimisticAction_step_input ev st Hev), Hstep. simpl.
      apply IH; [done|]. by rewrite Hrun.
Qed.

End OptimisticFacts.

(** The effect calls nothing under the executing status. *)
Lemma callbacks_effect_executing {Input Data Thrown : Type}
    (f g : option FnRef) (response : @HookResponse Data Thrown)
    (input : option Input) (reset : FnRef) :
  callbacks_effect f g response input executing reset = [].
Proof. by destruct f, g. Qed.

(** What the effect calls under the two final statuses. *)
Lemma callbacks_effect_hasSucceded {Input Data Thrown : Type}
    (f : FnRef) (g : option FnRef) (response : @HookResponse Data Thrown)
    (input : option Input) (reset : FnRef) :
  callbacks_effect (Some f) g response input hasSucceded reset
  = [Call_onSuccess f (data (val response)) input reset].
Proof. done. Qed.

Lemma callbacks_effect_hasErrored {Input Data Thrown : Type}
    (f : option FnRef) (g : FnRef) (response : @HookResponse Data Thrown)
    (input : option Input) (reset : FnRef) :
  callbacks_effect f (Some g) response input hasErrored reset
  = [Call_onError g response input reset].
Proof. by destruct f. Qed.

(** The marker is set as soon as one optimistic update is pending. *)
Lemma optState_executing {V : Type} (p : @OptState V)
    (pending : list (gmap string V)) (d : gmap string V) :
  __isExecuting__ (experimental_useOptimistic p opt_reducer (pending ++ [d])) = true.
Proof. unfold experimental_useOptimistic. by rewrite foldl_app. Qed.

(** C10. In both hooks [reset()] writes the response only, setting it
    to the empty result: the stored input (and everything else the hook
    keeps) is left as it was.  So, until [execute] is called again, every
    callback that fires, also after any number of resets, receives the
    input of the last [execute] call; and when [reset()] is called while
    a call is in flight, the status transition that the result of that
    call brings does fire its callback, with the input of that
    [execute] call. *)
Theorem C10_reset_keeps_input {Input Data V Thrown : Type}
    `{!Utils Thrown} `{!JsThrowables Thrown} :
  (∀ st : @UseActionState Input Data Thrown,
     val (ua_response (useAction_reset st)) = emptyResult
     ∧ ua_input (useAction_reset st) = ua_input st
     ∧ ua_isExecuting (useAction_reset st) = ua_isExecuting st
     ∧ ua_cells (useAction_reset st) = ua_cells st)
  ∧ (∀ st : @UseOptimisticState Input V Thrown,
       val (uo_response (useOptimisticAction_reset st)) = emptyResult
       ∧ uo_input (useOptimisticAction_reset st) = uo_input st
       ∧ uo_pending (useOptimisticAction_reset st) = uo_pending st
       ∧ uo_cells (useOptimisticAction_reset st) = uo_cells st)
  ∧ (∀ (input : Input) (st : @UseActionState Input Data Thrown) evs x,
       forallb (λ ev, negb (is_Execute ev)) evs = true →
       x ∈ snd (useAction_run evs (useAction_execute input st)) →
       call_input x = Some input)
  ∧ (∀ (input : Input) newOptimisticData
       (st : @UseOptimisticState Input V Thrown) evs x,
       forallb (λ ev, negb (is_OExecute ev)) evs = true →
       x ∈ snd (useOptimisticAction_run evs
                  (useOptimisticAction_execute input newOptimisticData st)) →
       call_input x = Some input)
  ∧ (∀ (input : Input) (st : @UseActionState Input Data Thrown) c cb1 cb2 cb3 r,
       ua_cells st = Some c →
       (∀ f, onSuccessRef c = Some f →
             getActionStatus false (val r) = hasSucceded →
             snd (useAction_run
                    [Execute input; Render cb1; Reset; Render cb2;
                     Settle (Fulfilled r); TransitionEnd; Render cb3] st)
             = [Call_onSuccess f (data (val r)) (Some input) ResetFn])
       ∧ (∀ g, onErrorRef c = Some g →
               getActionStatus false (val r) = hasErrored →
               snd (useAction_run
                      [Execute input; Render cb1; Reset; Render cb2;
                       Settle (Fulfilled r); TransitionEnd; Render cb3] st)
               = [Call_onError g r (Some input) ResetFn]))
  ∧ (∀ (input : Input) d (st : @UseOptimisticState Input V Thrown)
       c init cb1 cb2 cb3 r,
       uo_cells st = Some c →
       (∀ f, onSuccessRef c = Some f →
             getActionStatus false (val r) = hasSucceded →
             snd (useOptimisticAction_run
                    [OExecute input d; ORender init cb1; OReset; ORender init cb2;
                     OSettle (Fulfilled r); OOptimisticEnd; ORender init cb3] st)
             = [Call_onSuccess f (data (val r)) (Some input) ResetFn])
       ∧ (∀ g, onErrorRef c = Some g →
               getActionStatus false (val r) = hasErrored →
               snd (useOptimisticAction_run
                      [OExecute input d; ORender init cb1; OReset; ORender init cb2;
                       OSettle (Fulfilled r); OOptimisticEnd; ORender init cb3] st)
               = [Call_onError g r (Some input) ResetFn])).
Proof.
  split; [done|]. split; [done|]. split; [|split; [|split]].
  - intros input st evs x Hevs Hin.
    by rewrite (useAction_run_input evs _ x Hevs Hin).
  - intros input d st evs x Hevs Hin.
    by rewrite (useOptimisticAction_run_input evs _ x Hevs Hin).
  - intros input st c cb1 cb2 cb3 r Hc.
    split; [intros f Hf Hstatus|intros g Hg Hstatus];
      cbn -[getActionStatus callbacks_effect bool_decide];
      unfold useAction, useActionCallbacks;
      cbn -[getActionStatus callbacks_effect bool_decide];
      rewrite Hc; cbn -[getActionStatus callbacks_effect bool_decide];
      change (getActionStatus true ?x) with executing;
      rewrite !callbacks_effect_executing, Hstatus;
      [rewrite (bool_decide_eq_true_2 (_ ≠ (hasSucceded, _, _))) by congruence;
       rewrite Hf, callbacks_effect_hasSucceded
      |rewrite (bool_decide_eq_true_2 (_ ≠ (hasErrored, _, _))) by congruence;
       rewrite Hg, callbacks_effect_hasErrored];
      by repeat case_bool_decide.
  - intros input d st c init cb1 cb2 cb3 r Hc.
    split; [intros f Hf Hstatus|intros g Hg Hstatus];
      cbn -[getActionStatus callbacks_effect bool_decide experimental_useOptimistic];
      unfold useOptimisticAction, useActionCallbacks;
      cbn -[getActionStatus callbacks_effect bool_decide experimental_useOptimistic];
      rewrite Hc;
      cbn -[getActionStatus callbacks_effect bool_decide experimental_useOptimistic];
      rewrite !optState_executing;
      change (experimental_useOptimistic ?p opt_reducer []) with p;
      cbn [__isExecuting__ opt_passthrough];
      change (getActionStatus true ?x) with executing;
      rewrite !callbacks_effect_executing, Hstatus;
      [rewrite (bool_decide_eq_true_2 (_ ≠ (hasSucceded, _, _))) by congruence;
       rewrite Hf, callbacks_effect_hasSucceded
      |rewrite (bool_decide_eq_true_2 (_ ≠ (hasErrored, _, _))) by congruence;
       rewrite Hg, callbacks_effect_hasErrored];
      by repeat case_bool_decide.
Qed.

(** The claim C9 as the specification words it fails on the callback
    that is called: the first render is given [onSuccess1], every later
    render [onSuccess2]; when the status becomes succeeded, the callback
    called is the one of [onSuccess1]. *)
Lemma C9_counterexample :
  snd (useAction_run (Input := Z)
         [Render (Some Sample.onSuccess1);
          Execute 7%Z;
          Render (Some Sample.onSuccess2);
          Settle (Fulfilled Sample.succeeded);
          Render (Some Sample.onSuccess2);
          TransitionEnd;
          Render (Some Sample.onSuccess2)]
         useAction_initial)
  = [Call_onSuccess (UserFn 1) (Some 14%Z) (Some 7%Z) ResetFn]
  ∧ onSuccess Sample.onSuccess2 = Some (UserFn 2)
  ∧ UserFn 1 ≠ UserFn 2.
Proof. split; [by vm_compute|]. split; [reflexivity|discriminate]. Qed.

Lemma C9_witness :
  Forall (λ x, Some (call_fn x) = Some (UserFn 1)
               ∨ Some (call_fn x) = Some (UserFn 10))
    (snd (useAction_run (Input := Z)
            [Render (Some Sample.onSuccess1);
             Execute 7%Z;
             Render (Some Sample.onSuccess2);
             Settle (Fulfilled Sample.succeeded);
             TransitionEnd;
             Render (Some Sample.onSuccess2)]
            useAction_initial)).
Proof.
  apply Forall_forall. intros x Hin.
  exact (proj2 (proj2 C9_callbacks_on_change_from_first_render)
           (Some Sample.onSuccess1) _ x Hin).
Defined.

Lemma C10_witness :
  snd (useAction_run
         [Execute 7%Z; Render (Some Sample.onSuccess2); Reset;
          Render (Some Sample.onSuccess2); Settle (Fulfilled Sample.succeeded);
          TransitionEnd; Render (Some Sample.onSuccess2)]
         SampleMore.mounted)
  = [Call_onSuccess (UserFn 1) (data (val Sample.succeeded)) (Some 7%Z) ResetFn].
Proof.
  apply (proj1 (proj1 (proj2 (proj2 (proj2 (proj2 (C10_reset_keeps_input (V := Z))))))
                  7%Z SampleMore.mounted
                  (mkCells (Some (UserFn 1)) (Some (UserFn 10)) (idle, Lit 0, ResetFn))
                  (Some Sample.onSuccess2) (Some Sample.onSuccess2)
                  (Some Sample.onSuccess2) Sample.succeeded eq_refl)
           (UserFn 1)); reflexivity.
Defined.

(** Also on a hook that renders for the first time after [execute]: the
    input of the [execute] call made before the reset reaches
    [onSuccess]. *)
Example reset_then_success :
  snd (useAction_run Sample.reset_before_result
         (useAction_execute 7%Z useAction_initial))
  = [Call_onSuccess (UserFn 1) (Some 14%Z) (Some 7%Z) ResetFn].
Proof. by vm_compute. Qed.

(** * Further properties of the action builder *)

Section ServerExtras.

Context {Input Parsed Ctx Data W Thrown : Type}.
Context `{!Utils Thrown} `{!JsThrowables Thrown} `{!JsEngine} `{!Empty Ctx}.

Variable createOpts : option (@CreateOpts Ctx Data W Thrown).
Variable schema : @Schema Input Parsed W Thrown.
Variable serverCode : @ServerCode Parsed Ctx Data W Thrown.

(** The calls the [try] block can make: [buildContext] when configured,
    then the handler. *)
Lemma action_try_trace (clientInput : Input) (w w' : W)
    (r : Settled Thrown (ActionResult Data Thrown)) (t : list Event) :
  action_try createOpts schema serverCode clientInput w = (r, w', t) →
  t = [] ∨ t = [Call_buildContext]
  ∨ ∃ p c, t = [Call_serverCode p c] ∨ t = [Call_buildContext; Call_serverCode p c].
Proof.
  intros Htry. split_opts createOpts; run_async;
    first [ by left | by right; left
          | right; right; eexists _, _; by left
          | right; right; eexists _, _; by right ].
Qed.

(** The calls the [catch] block can make, for the value it caught. *)
Lemma action_catch_trace (e : Thrown) (w w' : W)
    (r : Settled Thrown (ActionResult Data Thrown))
    (t : list (@Event Parsed Ctx Thrown)) :
  action_catch createOpts e w = (r, w', t) →
  (t = [] ∧ isNavigationSignal e = true)
  ∨ (isNavigationSignal e = false ∧ isError e = false ∧ ∃ label, t = [Console_warn label e])
  ∨ (isNavigationSignal e = false ∧ isError e = true
     ∧ (t = [Call_handleServerErrorLog e]
        ∨ t = [Call_handleServerErrorLog e; Call_handleReturnedServerError e]
        ∨ ∃ label msg,
            createOpts ≫= handleServerErrorLog = None
            ∧ t = [Call_handleServerErrorLog e; Console_error label msg;
                   Call_handleReturnedServerError e])).
Proof.
  unfold isNavigationSignal, action_catch.
  destruct (isNextRedirectError e || isNextNotFoundError e) eqn:Hnav;
    destruct (isError e) eqn:Herr; simpl; intros Hcatch;
    split_opts createOpts; run_async;
    first [ by left
          | right; left; split; [done|]; split; [done|]; by eexists
          | right; right; split; [done|]; split; [done|];
            first [ by left | by right; left
                  | right; right; by eexists _, _ ] ].
Qed.

(** How a run of the built action splits into the two blocks. *)
Lemma actionBuilder_blocks (clientInput : Input) (w wf : W)
    (r : Settled Thrown (ActionResult Data Thrown)) (t : list Event) :
  actionBuilder createOpts schema serverCode clientInput w = (r, wf, t) →
  (∃ r0, r = Fulfilled r0
         ∧ action_try createOpts schema serverCode clientInput w = (r, wf, t))
  ∨ (∃ e w1 t1 t2,
       action_try createOpts schema serverCode clientInput w = (Rejected e, w1, t1)
       ∧ action_catch createOpts e w1 = (r, wf, t2)
       ∧ t = t1 ++ t2).
Proof.
  unfold actionBuilder, try_catch.
  destruct (action_try createOpts schema serverCode clientInput w)
    as [[[r0|e] w1] t1] eqn:Htry.
  - intros; simplify_eq. left. by exists r0.
  - destruct (action_catch createOpts e w1) as [[r1 w2] t2] eqn:Hcatch.
    intros; simplify_eq. right. by exists e, w1, t1, t2.
Qed.

(** No retries: in one invocation of the built action each of
    [buildContext], the handler, [handleServerErrorLog] and
    [handleReturnedServerError] is called at most once. *)
Theorem action_calls_at_most_once (clientInput : Input) (w wf : W)
    (r : Settled Thrown (ActionResult Data Thrown)) (t : list Event) :
  actionBuilder createOpts schema serverCode clientInput w = (r, wf, t) →
  buildContext_calls t ≤ 1
  ∧ length (serverCode_calls t) ≤ 1
  ∧ length (log_calls t) ≤ 1
  ∧ length (mapper_calls t) ≤ 1.
Proof.
  intros [(r0 & -> & Htry)|(e & w1 & t1 & t2 & Htry & Hcatch & ->)]%actionBuilder_blocks.
  - apply action_try_trace in Htry
      as [->|[->|(p & c & [->| ->])]];
      unfold buildContext_calls, serverCode_calls, log_calls, mapper_calls;
      simpl; lia.
  - apply action_try_trace in Htry
      as [->|[->|(p & c & [->| ->])]];
      apply action_catch_trace in Hcatch
        as [[-> _]|[(_ & _ & l & ->)|(_ & _ & [->|[->|(l & m & _ & ->)]])]];
      unfold buildContext_calls, serverCode_calls, log_calls, mapper_calls;
      simpl; lia.
Qed.

(** The two hooks only ever receive a value that was thrown inside the
    [try] block, is a proper [Error] and is not a navigation signal; the
    mapper is called, if at all, after the logging hook and with the same
    value. *)
Theorem hooks_receive_the_caught_error (clientInput : Input) (w wf : W)
    (r : Settled Thrown (ActionResult Data Thrown)) (t : list Event) :
  actionBuilder createOpts schema serverCode clientInput w = (r, wf, t) →
  (log_calls t = [] ∧ mapper_calls t = [])
  ∨ (∃ e w1 t1 t2,
       thrown_in_try createOpts schema serverCode clientInput w e w1
       ∧ isError e = true ∧ isNavigationSignal e = false
       ∧ t = t1 ++ Call_handleServerErrorLog e :: t2
       ∧ log_calls t = [e] ∧ log_calls t1 = [] ∧ mapper_calls t1 = []
       ∧ (mapper_calls t = [] ∨ mapper_calls t = [e])).
Proof.
  intros [(r0 & -> & Htry)|(e & w1 & t1 & t2 & Htry & Hcatch & ->)]%actionBuilder_blocks.
  - left. apply action_try_trace in Htry
      as [->|[->|(p & c & [->| ->])]]; done.
  - pose proof (action_try_rejected_inv _ _ _ _ _ _ _ _ Htry) as Hthrown.
    assert (log_calls t1 = [] ∧ mapper_calls t1 = []) as [Hl Hm].
    { apply action_try_trace in Htry
        as [->|[->|(p & c & [->| ->])]]; done. }
    unfold log_calls, mapper_calls in *.
    apply action_catch_trace in Hcatch
      as [[-> _]|[(_ & _ & l & ->)|(Hnav & Herr & Hshape)]].
    + left. by rewrite app_nil_r.
    + left. by rewrite !omap_app, Hl, Hm.
    + right. exists e, w1, t1.
      destruct Hshape as [->|[->|(l & m & _ & ->)]]; eexists;
        (split; [done|]); (split; [done|]); (split; [done|]);
        (split; [reflexivity|]); rewrite !omap_app, Hl, Hm; simpl; auto.
Qed.

(** With both hooks written by the application and returning, a proper
    [Error] caught from the [try] block is logged, then mapped: the mapper
    runs on the state the logger left, the result is the object the
    mapper resolved to, which carries the mapper's message, and nothing
    is written to the console. *)
Theorem custom_hooks_compose (clientInput : Input) (w w1 w2 w3 : W)
    (e : Thrown) (f : Thrown → Callback W Thrown ())
    (g : Thrown → Callback W Thrown ReturnedServerError)
    (s : ReturnedServerError) :
  thrown_in_try createOpts schema serverCode clientInput w e w1 →
  isNavigationSignal e = false →
  isError e = true →
  createOpts ≫= handleServerErrorLog = Some f →
  f e w1 = (Fulfilled (), w2) →
  createOpts ≫= handleReturnedServerError = Some g →
  g e w2 = (Fulfilled s, w3) →
  ∃ t1,
    action_try createOpts schema serverCode clientInput w = (Rejected e, w1, t1)
    ∧ actionBuilder createOpts schema serverCode clientInput w
      = (Fulfilled (returned_object s), w3,
         t1 ++ [Call_handleServerErrorLog e; Call_handleReturnedServerError e])
    ∧ serverError (returned_object s) = Some (returned_serverError s)
    ∧ (s = only_serverError (returned_serverError s) →
       returned_object s
       = mkResult None None (Some (returned_serverError s)) None).
Proof.
  intros Hthrown Hnav Herr Hlog Hf Hmap Hg.
  destruct (action_try_rejected _ _ _ clientInput w w1 e Hthrown)
    as (t1 & Htry & _).
  exists t1. split; [done|]. split; [|split; [done|by intros ->]].
  eapply actionBuilder_try_rejected; [done|].
  unfold isNavigationSignal in Hnav.
  unfold action_catch, resolved_handleServerErrorLog,
    resolved_handleReturnedServerError, bind, invoke, emit, ret.
  rewrite Hnav, Herr, Hlog, Hmap. simpl. rewrite Hf. simpl. by rewrite Hg.
Qed.

(** When the logging hook written by the application throws, the mapper
    is not called and the promise rejects with what the logger threw. *)
Theorem failing_logger_skips_mapper (clientInput : Input) (w w1 w2 : W)
    (e e' : Thrown) (f : Thrown → Callback W Thrown ()) :
  thrown_in_try createOpts schema serverCode clientInput w e w1 →
  isNavigationSignal e = false →
  isError e = true →
  createOpts ≫= handleServerErrorLog = Some f →
  f e w1 = (Rejected e', w2) →
  ∃ t,
    actionBuilder createOpts schema serverCode clientInput w = (Rejected e', w2, t)
    ∧ log_calls t = [e] ∧ mapper_calls t = [].
Proof.
  intros Hthrown Hnav Herr Hlog Hf.
  destruct (action_try_rejected _ _ _ clientInput w w1 e Hthrown)
    as (t1 & Htry & Hl & Hm).
  exists (t1 ++ [Call_handleServerErrorLog e]). split.
  - eapply actionBuilder_try_rejected; [done|].
    unfold isNavigationSignal in Hnav.
    unfold action_catch, resolved_handleServerErrorLog, bind, invoke, emit.
    rewrite Hnav, Herr, Hlog. simpl. by rewrite Hf.
  - unfold log_calls, mapper_calls in *. by rewrite !omap_app, Hl, Hm.
Qed.

(** When [buildContext] throws, whatever it throws, the handler is not
    called; [buildContext] itself was called once. *)
Theorem failing_context_skips_handler (clientInput : Input) (w w1 w2 wf : W)
    (parsed : Parsed) (f : Callback W Thrown Ctx) (e : Thrown)
    (r : Settled Thrown (ActionResult Data Thrown)) (t : list Event) :
  safeParse schema clientInput w = (Fulfilled (SafeParseSuccess parsed), w1) →
  createOpts ≫= buildContext = Some f →
  f w1 = (Rejected e, w2) →
  actionBuilder createOpts schema serverCode clientInput w = (r, wf, t) →
  serverCode_calls t = [] ∧ buildContext_calls t = 1.
Proof.
  intros Hparse Hopt Hf.
  assert (await_ctx (Parsed := Parsed) createOpts w1
          = (Rejected e, w2, [Call_buildContext])) as Hctx
    by (apply await_ctx_rejected; eauto).
  unfold actionBuilder, try_catch, action_try, bind, invoke.
  rewrite Hparse, Hctx.
  destruct (action_catch createOpts e w2) as [[r1 w3] t2] eqn:Hcatch.
  apply action_catch_calls in Hcatch as [Hs Hb].
  intros; simplify_eq. split; [exact Hs|].
  change (S (buildContext_calls t2) = 1). by rewrite Hb.
Qed.

(** Unless parsing returns a success, neither [buildContext] nor the
    handler is called, also when parsing itself throws. *)
Theorem no_success_no_calls (clientInput : Input) (w wf : W)
    (r : Settled Thrown (ActionResult Data Thrown)) (t : list Event) :
  (∀ parsed w1,
     safeParse schema clientInput w ≠ (Fulfilled (SafeParseSuccess parsed), w1)) →
  actionBuilder createOpts schema serverCode clientInput w = (r, wf, t) →
  serverCode_calls t = [] ∧ buildContext_calls t = 0.
Proof.
  intros Hno.
  unfold actionBuilder, try_catch, action_try, bind, invoke, settled, ret.
  destruct (safeParse schema clientInput w) as [[[parsed|error]|e] w1] eqn:Hparse.
  - by destruct (Hno parsed w1).
  - destruct (flatten error) as [fl|e]; [by intros; simplify_eq|].
    destruct (action_catch createOpts e w1) as [[r1 w3] t2] eqn:Hcatch.
    apply action_catch_calls in Hcatch as [Hs Hb].
    by intros; simplify_eq.
  - destruct (action_catch createOpts e w1) as [[r1 w3] t2] eqn:Hcatch.
    apply action_catch_calls in Hcatch as [Hs Hb].
    by intros; simplify_eq.
Qed.

(** Seen from the hook: a result the action resolves to after a
    validation failure, or after a failure caught from the [try] block,
    has [validationError] or [serverError] defined; so it derives the
    errored status once nothing is executing unless it has data, which
    only the object of a custom [handleReturnedServerError] can bring:
    with the default mapper the status is always errored, also when the
    mapping of field errors is empty. *)
Theorem failures_derive_hasErrored (clientInput : Input) (w wf : W)
    (r : ActionResult Data Thrown) (t : list Event) :
  actionBuilder createOpts schema serverCode clientInput w = (Fulfilled r, wf, t) →
  (∃ error w1, safeParse schema clientInput w = (Fulfilled (SafeParseError error), w1))
  ∨ (∃ e w1, thrown_in_try createOpts schema serverCode clientInput w e w1) →
  (is_Some (validationError r) ∨ is_Some (serverError r))
  ∧ (data r = None → getActionStatus false r = hasErrored)
  ∧ (createOpts ≫= handleReturnedServerError = None →
     getActionStatus false r = hasErrored).
Proof.
  intros Hact Hfail.
  assert ((∃ fe, r = mkResult None (Some fe) None None)
          ∨ (∃ s, r = mkResult None None (Some s) None)
          ∨ (is_Some (createOpts ≫= handleReturnedServerError)
             ∧ ∃ ro, r = returned_object ro)) as Hshape.
  { unfold actionBuilder, try_catch in Hact.
    destruct (action_try createOpts schema serverCode clientInput w)
      as [[[r0|e0] w1] t1] eqn:Htry.
    - simplify_eq. left.
      destruct Hfail as [(error & w1 & Hparse)|(e & w1 & Hthrown)].
      + unfold action_try, bind, invoke, settled, ret in Htry.
        rewrite Hparse in Htry.
        destruct (flatten error) as [fl|e]; simplify_eq/=. by eexists.
      + destruct (action_try_rejected _ _ _ clientInput w w1 e Hthrown)
          as (t1 & Htry' & _). congruence.
    - right.
      destruct (action_catch createOpts e0 w1) as [[r1 w3] t2] eqn:Hcatch.
      simplify_eq.
      apply action_catch_fulfilled in Hcatch
        as [[s ->]|(g & w2 & Hg & ro & _ & ->)]; [left; by eexists|].
      right. split; [|by eexists]. clear Htry Hfail.
      split_opts createOpts; by simplify_eq. }
  destruct Hshape as [[fe ->]|[[s ->]|[Hmapper [ro ->]]]].
  - split; [left; by eexists|]. by split.
  - split; [right; by eexists|]. by split.
  - split; [right; by eexists|]. split.
    + simpl. intros Hdata. unfold getActionStatus. simpl. rewrite Hdata. simpl.
      by destruct (returned_validationError ro).
    + intros Hnone. rewrite Hnone in Hmapper. by destruct Hmapper.
Qed.

(** A validation failure whose issues are filed under plain names (none
    that object literals inherit from [Object.prototype]): the action
    resolves to the validation error only, calls neither the handler nor
    [buildContext] nor a hook nor the console, and the mapping has
    exactly the fields under which an issue is filed, each with the
    messages of its issues in issue order; an issue whose path starts
    with the name [s] is under the key [s], one whose path starts with
    the index [n] under the key the engine writes [n] as. *)
Theorem validation_failure_on_plain_fields (clientInput : Input) (w w1 : W)
    (error : ZodError) :
  safeParse schema clientInput w = (Fulfilled (SafeParseError error), w1) →
  plain_fields (issues error) →
  ∃ fe : gmap string (list string),
    actionBuilder createOpts schema serverCode clientInput w
      = (Fulfilled (mkResult None (Some fe) None None), w1, [])
    ∧ (∀ k, is_Some (fe !! k) ↔
            ∃ sub, sub ∈ issues error ∧ issue_field sub = Some k)
    ∧ (∀ k ms, fe !! k = Some ms →
               ms ≠ [] ∧ ms = field_messages k (issues error))
    ∧ (∀ sub s rest, sub ∈ issues error → path sub = PKey s :: rest →
                     ∃ ms, fe !! s = Some ms ∧ message sub ∈ ms)
    ∧ (∀ sub n rest, sub ∈ issues error → path sub = PIdx n :: rest →
                     ∃ ms, fe !! number_to_string n = Some ms ∧ message sub ∈ ms).
Proof.
  intros Hparse Hplain.
  destruct (flatten_plain (Thrown := Thrown) error Hplain) as (fl & Hfl & Hlookup).
  exists (fieldErrors fl).
  assert (∀ sub k, sub ∈ issues error → issue_field sub = Some k →
                   ∃ ms, fieldErrors fl !! k = Some ms ∧ message sub ∈ ms) as Hfiled.
  { intros sub k Hin Hk. rewrite Hlookup.
    pose proof (field_messages_elem k (issues error) sub Hin Hk) as Helem.
    destruct (field_messages k (issues error)) as [|m ms];
      [by apply not_elem_of_nil in Helem|by eexists]. }
  split; [|split; [|split; [|split]]].
  - apply actionBuilder_try_fulfilled.
    unfold action_try, bind, invoke, settled, ret. by rewrite Hparse, Hfl.
  - intros k. rewrite Hlookup.
    destruct (field_messages k (issues error)) as [|m ms] eqn:Hms.
    + apply field_messages_nil in Hms. split; [by intros [? ?]|done].
    + split; [|by eauto]. intros _. by eapply field_messages_cons.
  - intros k ms. rewrite Hlookup.
    destruct (field_messages k (issues error)); [done|].
    intros; by simplify_eq.
  - intros sub s rest Hin Hpath. apply Hfiled; [done|].
    unfold issue_field. by rewrite Hpath.
  - intros sub n rest Hin Hpath. apply Hfiled; [done|].
    unfold issue_field. by rewrite Hpath.
Qed.

(** A validation failure with an issue filed under a name that object
    literals inherit from [Object.prototype] (such as [toString]) is not
    reported as a validation error: [flatten()] throws a [TypeError]
    inside the [try] block, and with the default hooks the action logs it
    and resolves to the generic server error. *)
Theorem flatten_failure_is_a_server_error (clientInput : Input) (w w1 : W)
    (error : ZodError) (sub : ZodIssue) (k : string) :
  safeParse schema clientInput w = (Fulfilled (SafeParseError error), w1) →
  sub ∈ issues error →
  issue_field sub = Some k →
  inherited k = true →
  isError typeError = true →
  isNavigationSignal typeError = false →
  createOpts ≫= handleServerErrorLog = None →
  createOpts ≫= handleReturnedServerError = None →
  actionBuilder createOpts schema serverCode clientInput w
  = (Fulfilled (mkResult None None (Some DEFAULT_SERVER_ERROR) None), w1,
     [Call_handleServerErrorLog typeError;
      Console_error "Action error:" (errorMessage typeError);
      Call_handleReturnedServerError typeError]).
Proof.
  intros Hparse Hin Hk Hinh Herr Hnav Hlog Hmap.
  destruct (parse_failure_inherited_run createOpts schema serverCode
              clientInput w w1 error sub k) as [_ ->]; try done.
  unfold isNavigationSignal in Hnav.
  unfold action_catch, resolved_handleServerErrorLog,
    resolved_handleReturnedServerError.
  by rewrite Hnav, Herr, Hlog, Hmap.
Qed.

End ServerExtras.

Lemma action_calls_at_most_once_witness :
  buildContext_calls (Parsed := Z) (Thrown := Sample.Thrown)
    [Call_buildContext; Call_serverCode 7%Z Sample.session] ≤ 1
  ∧ length (serverCode_calls (Thrown := Sample.Thrown)
              [Call_buildContext; Call_serverCode 7%Z Sample.session]) ≤ 1
  ∧ length (log_calls (Thrown := Sample.Thrown)
              [Call_buildContext; Call_serverCode 7%Z Sample.session]) ≤ 1
  ∧ length (mapper_calls (Thrown := Sample.Thrown)
              [Call_buildContext; Call_serverCode 7%Z Sample.session]) ≤ 1.
Proof.
  apply (action_calls_at_most_once (Some Sample.opts_session) Sample.schema
           Sample.serverCode 7%Z 0 2
           (Fulfilled (mkResult (Some 14%Z) None None None))).
  reflexivity.
Defined.

Lemma hooks_receive_the_caught_error_witness :
  let t := [Call_serverCode 0%Z (∅ : Sample.AppContext);
            Call_handleServerErrorLog (Sample.JsError "boom");
            Console_error "Action error:" "boom";
            Call_handleReturnedServerError (Sample.JsError "boom")] in
  (log_calls t = [] ∧ mapper_calls t = [])
  ∨ (∃ e w1 t1 t2,
       thrown_in_try None Sample.schema Sample.serverCode 0%Z 0 e w1
       ∧ isError e = true ∧ isNavigationSignal e = false
       ∧ t = t1 ++ Call_handleServerErrorLog e :: t2
       ∧ log_calls t = [e] ∧ log_calls t1 = [] ∧ mapper_calls t1 = []
       ∧ (mapper_calls t = [] ∨ mapper_calls t = [e])).
Proof.
  apply (hooks_receive_the_caught_error None Sample.schema Sample.serverCode
           0%Z 0 1
           (Fulfilled (mkResult None None (Some DEFAULT_SERVER_ERROR) None))).
  reflexivity.
Defined.

Lemma custom_hooks_compose_witness :
  ∃ t1,
    action_try (Some SampleMore.opts_custom) Sample.schema Sample.serverCode 0%Z 0
    = (Rejected (Sample.JsError "boom"), 1, t1)
    ∧ actionBuilder (Some SampleMore.opts_custom) Sample.schema Sample.serverCode 0%Z 0
      = (Fulfilled (returned_object (only_serverError "Failed: boom")), 3,
         t1 ++ [Call_handleServerErrorLog (Sample.JsError "boom");
                Call_handleReturnedServerError (Sample.JsError "boom")])
    ∧ serverError (returned_object (Data := Z) (Thrown := Sample.Thrown)
                     (only_serverError "Failed: boom"))
      = Some "Failed: boom"
    ∧ (only_serverError (Data := Z) (Thrown := Sample.Thrown) "Failed: boom"
       = only_serverError "Failed: boom" →
       returned_object (Data := Z) (Thrown := Sample.Thrown)
         (only_serverError "Failed: boom")
       = mkResult None None (Some "Failed: boom") None).
Proof.
  apply (custom_hooks_compose (Some SampleMore.opts_custom) Sample.schema
           Sample.serverCode 0%Z 0 1 2 3 (Sample.JsError "boom")
           (λ e w, (Fulfilled (), S w))
           (λ e w, (Fulfilled (only_serverError ("Failed: " +:+ errorMessage e)), S w))
           (only_serverError "Failed: boom")); try reflexivity.
  right. left. exists 0%Z, 0. split; [reflexivity|].
  right. exists ∅, 0, []. split; reflexivity.
Defined.

Lemma failing_logger_skips_mapper_witness :
  ∃ t,
    actionBuilder (Some Sample.opts_logger_down) Sample.schema Sample.serverCode 0%Z 0
    = (Rejected (Sample.JsError "logger down"), 2, t)
    ∧ log_calls t = [Sample.JsError "boom"] ∧ mapper_calls t = [].
Proof.
  apply (failing_logger_skips_mapper (Some Sample.opts_logger_down) Sample.schema
           Sample.serverCode 0%Z 0 1 2 (Sample.JsError "boom")
           (Sample.JsError "logger down")
           (λ e w, (Rejected (Sample.JsError "logger down"), S w)));
    try reflexivity.
  right. left. exists 0%Z, 0. split; [reflexivity|].
  right. exists ∅, 0, []. split; reflexivity.
Defined.

Lemma failing_context_skips_handler_witness :
  let t := [Call_buildContext;
            Call_handleServerErrorLog (Sample.JsError "no session");
            Console_error "Action error:" "no session";
            Call_handleReturnedServerError (Sample.JsError "no session")] in
  serverCode_calls (Parsed := Z) (Ctx := Sample.AppContext) t = []
  ∧ buildContext_calls t = 1.
Proof.
  apply (failing_context_skips_handler (Some Sample.opts_no_session) Sample.schema
           Sample.serverCode 7%Z 0 0 1 1 7%Z
           (λ w, (Rejected (Sample.JsError "no session"), S w))
           (Sample.JsError "no session")
           (Fulfilled (mkResult None None (Some DEFAULT_SERVER_ERROR) None)));
    reflexivity.
Defined.

Lemma no_success_no_calls_witness :
  serverCode_calls (Parsed := Z) (Ctx := Sample.AppContext) (Thrown := Sample.Thrown) [] = []
  ∧ buildContext_calls (Parsed := Z) (Ctx := Sample.AppContext) (Thrown := Sample.Thrown) [] = 0.
Proof.
  apply (no_success_no_calls (Some Sample.opts_session) Sample.schema
           Sample.serverCode (-2)%Z 0 0
           (Fulfilled (mkResult None
              (Some {[ "amount" := ["Number must be greater than or equal to 0"] ]})
              None None))).
  - intros parsed w1. discriminate.
  - by vm_compute.
Defined.

Lemma failures_derive_hasErrored_witness :
  (is_Some (validationError (mkResult (Data := Z) (Thrown := Sample.Thrown)
              None None (Some DEFAULT_SERVER_ERROR) None))
   ∨ is_Some (serverError (mkResult (Data := Z) (Thrown := Sample.Thrown)
                 None None (Some DEFAULT_SERVER_ERROR) None)))
  ∧ (data (mkResult (Data := Z) (Thrown := Sample.Thrown)
             None None (Some DEFAULT_SERVER_ERROR) None) = None →
     getActionStatus (Data := Z) (Thrown := Sample.Thrown) false
       (mkResult None None (Some DEFAULT_SERVER_ERROR) None) = hasErrored)
  ∧ ((None : option (@CreateOpts Sample.AppContext Z Sample.World Sample.Thrown)) ≫= handleReturnedServerError = None →
     getActionStatus (Data := Z) (Thrown := Sample.Thrown) false
       (mkResult None None (Some DEFAULT_SERVER_ERROR) None) = hasErrored).
Proof.
  apply (failures_derive_hasErrored None Sample.schema Sample.serverCode 2%Z 0 1 _
           [Call_serverCode 2%Z ∅;
            Console_warn "Could not handle server error. Not an instance of Error: "
              (Sample.JsOther "oops")]).
  - reflexivity.
  - right. exists (Sample.JsOther "oops"), 1.
    right. left. exists 2%Z, 0. split; [reflexivity|].
    right. exists ∅, 0, []. split; reflexivity.
Defined.

Lemma validation_failure_on_plain_fields_witness :
  actionBuilder (Some Sample.opts_session) Sample.schema Sample.serverCode (-2)%Z 0
  = (Fulfilled
       (mkResult None
          (Some {[ "amount" := ["Number must be greater than or equal to 0"] ]})
          None None),
     0, [])
  ∧ ({[ "amount" := ["Number must be greater than or equal to 0"] ]}
       : gmap string (list string)) !! "amount"
    = Some ["Number must be greater than or equal to 0"].
Proof.
  destruct (validation_failure_on_plain_fields (Some Sample.opts_session)
              Sample.schema Sample.serverCode (-2)%Z 0 0
              (mkZodError [mkIssue [PKey "amount"]
                             "Number must be greater than or equal to 0"]))
    as (fe & Hrun & _ & _ & Hkey & _).
  - reflexivity.
  - intros sub k ->%list_elem_of_singleton [= <-]. reflexivity.
  - destruct (Hkey (mkIssue [PKey "amount"]
                      "Number must be greater than or equal to 0")
                "amount" []) as (ms & Hms & Hmsg); [left|reflexivity|].
    split; [|reflexivity].
    rewrite Hrun. vm_compute in Hrun. by simplify_eq.
Defined.

Lemma flatten_failure_is_a_server_error_witness :
  actionBuilder None SampleMore.schema_toString Sample.serverCode 5%Z 0
  = (Fulfilled (mkResult None None (Some DEFAULT_SERVER_ERROR) None), 0,
     [Call_handleServerErrorLog typeError;
      Console_error "Action error:" (errorMessage typeError);
      Call_handleReturnedServerError typeError]).
Proof.
  apply (flatten_failure_is_a_server_error None SampleMore.schema_toString
           Sample.serverCode 5%Z 0 0
           (mkZodError [mkIssue [PKey "toString"] "Expected string, received function"])
           (mkIssue [PKey "toString"] "Expected string, received function")
           "toString"); try reflexivity.
  left.
Defined.

(** * Further properties of the client hooks *)



Section HookExtras.

Context {Input Data Thrown : Type}.
Context `{!Utils Thrown} `{!JsThrowables Thrown}.

Implicit Types (response : @HookResponse Data Thrown) (input : option Input).
Implicit Types (status : HookActionStatus) (reset : FnRef).
Implicit Types (cb : option HookCallbacks) (c : CallbackCells).





(** Rendering again without anything having happened calls no callback
    and leaves the hook as it was, whatever callbacks the second render
    is given. *)
Theorem useAction_rerender_is_silent (st : @UseActionState Input Data Thrown) cb cb' :
  useAction cb' (fst (fst (useAction cb st)))
  = (fst (fst (useAction cb st)), snd (fst (useAction cb st)), []).
Proof.
  unfold useAction, useActionCallbacks. simpl.
  by rewrite bool_decide_eq_false_2 by (by intros []).
Qed.

(** While the transition is pending the status is executing and no
    callback is called, also when a response has already arrived. *)
Theorem useAction_executing_is_silent (st : @UseActionState Input Data Thrown) cb :
  ua_isExecuting st = true →
  uar_status (snd (fst (useAction cb st))) = executing
  ∧ snd (useAction cb st) = [].
Proof.
  intros Hexec. unfold useAction, useActionCallbacks. simpl. rewrite Hexec.
  split; [done|]. unfold callbacks_effect. simpl.
  destruct (match ua_cells st with Some c => _ | None => true end); [|done].
  by repeat case_match.
Qed.

(** After [reset()], if no transition is pending, the next render shows
    the empty response with the idle status and calls no callback. *)
Theorem useAction_reset_then_idle (st : @UseActionState Input Data Thrown) cb :
  ua_isExecuting st = false →
  val (uar_response (snd (fst (useAction cb (useAction_reset st))))) = emptyResult
  ∧ uar_status (snd (fst (useAction cb (useAction_reset st)))) = idle
  ∧ snd (useAction cb (useAction_reset st)) = [].
Proof.
  intros Hexec. unfold useAction, useActionCallbacks. simpl. rewrite Hexec.
  split; [done|]. split; [done|]. unfold callbacks_effect. simpl.
  destruct (match ua_cells st with Some c => _ | None => true end); [|done].
  by repeat case_match.
Qed.

(** A rejection of the action's promise: a navigation signal leaves the
    hook untouched; any other value [e] is stored as the new object
    [{ fetchError: e }].  If [e] is not [undefined], then once nothing is
    executing and the status was not errored before, the next render
    calls the first render's [onError] with that response and the stored
    input.  If [e] is [undefined], no key of the stored object is
    defined: the next render has the idle status and calls no callback. *)
Theorem useAction_rejection (st : @UseActionState Input Data Thrown) (e : Thrown) :
  (isNavigationSignal e = true → useAction_settled (Rejected e) st = st)
  ∧ (isNavigationSignal e = false →
     ua_response (useAction_settled (Rejected e) st)
     = mkObj (Lit (ua_literals st)) (fetchError_object e)
     ∧ ∀ c g cb,
         ua_cells st = Some c →
         onErrorRef c = Some g →
         ua_isExecuting st = false →
         (is_undefined e = false →
          fst (fst (effectDeps c)) ≠ hasErrored →
          fetchError_object (Data := Data) e = mkResult None None None (Some e)
          ∧ snd (useAction_run [Settle (Rejected e); Render cb] st)
            = [Call_onError g
                 (mkObj (Lit (ua_literals st)) (mkResult None None None (Some e)))
                 (ua_input st) ResetFn])
         ∧ (is_undefined e = true →
            fetchError_object (Data := Data) e = emptyResult
            ∧ uar_status
                (snd (fst (useAction cb (useAction_settled (Rejected e) st))))
              = idle
            ∧ snd (useAction_run [Settle (Rejected e); Render cb] st) = [])).
Proof.
  unfold isNavigationSignal. split; intros Hnav.
  - simpl. by rewrite Hnav.
  - split; [simpl; by rewrite Hnav|].
    intros c g cb Hc Hg Hexec. split.
    + intros Hdef Hprev. unfold fetchError_object. rewrite Hdef.
      split; [done|]. simpl. rewrite Hnav.
      unfold useAction, useActionCallbacks. simpl. rewrite Hc, Hexec.
      unfold fetchError_object. rewrite Hdef. simpl.
      rewrite bool_decide_eq_true_2
        by (intros Hdeps; apply Hprev; by rewrite Hdeps).
      unfold callbacks_effect. rewrite Hg. simpl. by destruct (onSuccessRef c).
    + intros Hundef. unfold fetchError_object. rewrite Hundef.
      split; [done|]. simpl. rewrite Hnav.
      unfold useAction, useActionCallbacks. simpl. rewrite Hc, Hexec.
      unfold fetchError_object. rewrite Hundef. simpl.
      split; [done|]. unfold callbacks_effect. simpl.
      case_bool_decide; [|done]. by destruct (onSuccessRef c), (onErrorRef c).
Qed.

End HookExtras.

Section OptimisticExtras.

Context {Input V Thrown : Type}.
Context `{!Utils Thrown} `{!JsThrowables Thrown}.

Implicit Types (st : @UseOptimisticState Input V Thrown).
Implicit Types (init d : gmap string V) (cb : option HookCallbacks).

(** The marker of the optimistic state: set by every pending update. *)
Lemma optState_marker (p : OptState) (pending : list (gmap string V)) :
  __isExecuting__ (experimental_useOptimistic p opt_reducer pending)
  = match pending with [] => __isExecuting__ p | _ => true end.
Proof.
  unfold experimental_useOptimistic.
  destruct pending as [|d pending _] using rev_ind; [done|].
  rewrite foldl_app. simpl. by destruct pending.
Qed.

(** The data of the optimistic state never has the marker's key. *)
Lemma optState_no_marker_key init (response : @HookResponse (gmap string V) Thrown)
    (pending : list (gmap string V)) :
  opt_data (experimental_useOptimistic (opt_passthrough init response)
              opt_reducer pending) !! "__isExecuting__" = None.
Proof.
  unfold experimental_useOptimistic.
  destruct pending as [|d pending _] using rev_ind; simpl.
  - apply lookup_delete_eq.
  - rewrite foldl_app. simpl. apply lookup_delete_eq.
Qed.



(** The status of a render of the optimistic hook, by the pending
    updates. *)
Lemma useOptimisticAction_status_of_pending st init cb :
  uor_status (snd (fst (useOptimisticAction init cb st)))
  = match uo_pending st with
    | [] => getActionStatus false (val (uo_response st))
    | _ => executing
    end.
Proof.
  unfold useOptimisticAction. simpl. rewrite optState_marker.
  by destruct (uo_pending st).
Qed.

(** A key of the passthrough state other than the marker's. *)
Lemma opt_passthrough_lookup init
    (response : @HookResponse (gmap string V) Thrown) (k : string) :
  k ≠ "__isExecuting__" →
  opt_data (opt_passthrough init response) !! k
  = match data (val response) ≫= (λ confirmed, confirmed !! k) with
    | Some v => Some v
    | None => init !! k
    end.
Proof.
  intros Hk. unfold opt_passthrough. simpl. rewrite lookup_delete_ne by done.
  destruct (data (val response)) as [confirmed|]; simpl.
  - destruct (confirmed !! k) as [v|] eqn:Hv.
    + by apply lookup_union_Some_l.
    + by rewrite lookup_union_r.
  - by rewrite lookup_union_r by apply lookup_empty.
Qed.

(** The optimistic data the hook returns has no [__isExecuting__]
    property, whatever the initial data, the server data and the pending
    updates hold under that name. *)
Theorem optimisticData_has_no_marker st init cb :
  uor_optimisticData (snd (fst (useOptimisticAction init cb st)))
    !! "__isExecuting__" = None.
Proof. unfold useOptimisticAction. simpl. apply optState_no_marker_key. Qed.

(** The optimistic hook reports executing exactly while an optimistic
    update is pending, and then calls no callback; with none pending the
    status is the one the response alone derives. *)
Theorem useOptimisticAction_status st init cb :
  (uo_pending st ≠ [] →
   uor_status (snd (fst (useOptimisticAction init cb st))) = executing
   ∧ snd (useOptimisticAction init cb st) = [])
  ∧ (uo_pending st = [] →
     uor_status (snd (fst (useOptimisticAction init cb st)))
     = getActionStatus false (val (uo_response st))).
Proof.
  unfold useOptimisticAction, useActionCallbacks. simpl.
  rewrite optState_marker. split; intros Hpending.
  - destruct (uo_pending st) as [|d pending]; [done|]. simpl.
    split; [done|]. unfold callbacks_effect. simpl.
    destruct (match uo_cells st with Some c => _ | None => true end); [|done].
    by repeat case_match.
  - by rewrite Hpending.
Qed.

(** With no update pending, the optimistic data is the server's data
    laid over the initial data: a key the last response defines shows the
    server's value, any other key shows the initial value. *)
Theorem optimisticData_baseline st init cb (k : string) :
  uo_pending st = [] →
  k ≠ "__isExecuting__" →
  uor_optimisticData (snd (fst (useOptimisticAction init cb st))) !! k
  = match data (val (uo_response st)) ≫= (λ confirmed, confirmed !! k) with
    | Some v => Some v
    | None => init !! k
    end.
Proof.
  intros Hpending Hk. unfold useOptimisticAction. simpl. rewrite Hpending.
  by apply opt_passthrough_lookup.
Qed.

(** [execute(input, d)] lays [d] over what the hook showed: at the next
    render a key of [d] shows the predicted value and every other key
    shows what it showed before; the status is executing and the input is
    stored. *)
Theorem useOptimisticAction_execute_overlay st init cb (input : Input) d (k : string) :
  k ≠ "__isExecuting__" →
  uor_optimisticData
    (snd (fst (useOptimisticAction init cb (useOptimisticAction_execute input d st))))
    !! k
  = match d !! k with
    | Some v => Some v
    | None => uor_optimisticData (snd (fst (useOptimisticAction init cb st))) !! k
    end
  ∧ uor_status
      (snd (fst (useOptimisticAction init cb (useOptimisticAction_execute input d st))))
    = executing
  ∧ uo_input (useOptimisticAction_execute input d st) = Some input.
Proof.
  intros Hk. split; [|split; [|done]].
  - unfold useOptimisticAction, experimental_useOptimistic. simpl.
    rewrite foldl_app. simpl. rewrite lookup_delete_ne by done.
    destruct (d !! k) as [v|] eqn:Hv.
    + by apply lookup_union_Some_l.
    + by rewrite lookup_union_r.
  - rewrite useOptimisticAction_status_of_pending. simpl.
    by destruct (uo_pending st).
Qed.

(** Rendering again without anything having happened calls no callback
    and leaves the optimistic hook as it was, whatever initial data and
    callbacks the second render is given. *)
Theorem useOptimisticAction_rerender_is_silent st init init' cb cb' :
  fst (fst (useOptimisticAction init' cb' (fst (fst (useOptimisticAction init cb st)))))
  = fst (fst (useOptimisticAction init cb st))
  ∧ snd (useOptimisticAction init' cb' (fst (fst (useOptimisticAction init cb st))))
    = [].
Proof.
  unfold useOptimisticAction, useActionCallbacks. simpl.
  rewrite !optState_marker. simpl.
  by rewrite bool_decide_eq_false_2 by (by intros []).
Qed.

(** After [reset()], if no optimistic update is pending, the next render
    shows the empty response with the idle status, calls no callback, and
    the optimistic data is back to the initial data. *)
Theorem useOptimisticAction_reset_then_idle st init cb (k : string) :
  uo_pending st = [] →
  k ≠ "__isExecuting__" →
  val (uor_response (snd (fst (useOptimisticAction init cb (useOptimisticAction_reset st)))))
  = emptyResult
  ∧ uor_status (snd (fst (useOptimisticAction init cb (useOptimisticAction_reset st))))
    = idle
  ∧ snd (useOptimisticAction init cb (useOptimisticAction_reset st)) = []
  ∧ uor_optimisticData
      (snd (fst (useOptimisticAction init cb (useOptimisticAction_reset st)))) !! k
    = init !! k.
Proof.
  intros Hpending Hk. split; [done|].
  assert (uor_status
            (snd (fst (useOptimisticAction init cb (useOptimisticAction_reset st))))
          = idle) as Hidle.
  { rewrite useOptimisticAction_status_of_pending. simpl. by rewrite Hpending. }
  split; [done|]. split.
  - unfold useOptimisticAction, useActionCallbacks in *. simpl in *.
    rewrite Hidle. unfold callbacks_effect. simpl.
    destruct (match uo_cells st with Some c => _ | None => true end); [|done].
    by repeat case_match.
  - transitivity
      (opt_data (opt_passthrough init (uo_response (useOptimisticAction_reset st)))
         !! k).
    + unfold useOptimisticAction. simpl. by rewrite Hpending.
    + by rewrite opt_passthrough_lookup.
Qed.

End OptimisticExtras.


Lemma useAction_executing_is_silent_witness :
  uar_status (snd (fst (useAction (Some Sample.onSuccess2) SampleMore.answered_in_flight)))
  = executing
  ∧ snd (useAction (Some Sample.onSuccess2) SampleMore.answered_in_flight) = [].
Proof.
  apply (useAction_executing_is_silent SampleMore.answered_in_flight
           (Some Sample.onSuccess2)).
  reflexivity.
Defined.

Lemma useAction_reset_then_idle_witness :
  val (uar_response (snd (fst (useAction None
         (useAction_reset (useAction_transition_end SampleMore.answered_in_flight))))))
  = emptyResult
  ∧ uar_status (snd (fst (useAction None
         (useAction_reset (useAction_transition_end SampleMore.answered_in_flight)))))
    = idle
  ∧ snd (useAction None
           (useAction_reset (useAction_transition_end SampleMore.answered_in_flight)))
    = [].
Proof.
  apply (useAction_reset_then_idle
           (useAction_transition_end SampleMore.answered_in_flight) None).
  reflexivity.
Defined.

Lemma useAction_rejection_witness :
  snd (useAction_run
         [Settle (Rejected (Sample.JsOther "offline")); Render None]
         SampleMore.awaiting)
  = [Call_onError (UserFn 10)
       (mkObj (Lit 1) (mkResult None None None (Some (Sample.JsOther "offline"))))
       (Some 7%Z) ResetFn]
  ∧ snd (useAction_run
           [Settle (Rejected Sample.JsUndefined); Render None]
           SampleMore.awaiting)
    = [].
Proof.
  split.
  - destruct (useAction_rejection SampleMore.awaiting (Sample.JsOther "offline"))
      as [_ Hstored].
    destruct (Hstored eq_refl) as [_ Hrender].
    destruct (Hrender
                (mkCells (Some (UserFn 1)) (Some (UserFn 10)) (idle, Lit 0, ResetFn))
                (UserFn 10) None eq_refl eq_refl eq_refl) as [Hdefined _].
    apply Hdefined; [reflexivity|discriminate].
  - destruct (useAction_rejection SampleMore.awaiting Sample.JsUndefined)
      as [_ Hstored].
    destruct (Hstored eq_refl) as [_ Hrender].
    destruct (Hrender
                (mkCells (Some (UserFn 1)) (Some (UserFn 10)) (idle, Lit 0, ResetFn))
                (UserFn 10) None eq_refl eq_refl eq_refl) as [_ Hundefined].
    apply Hundefined. reflexivity.
Defined.

Lemma useOptimisticAction_status_witness :
  uor_status (snd (fst (useOptimisticAction SampleMore.cart None
       (useOptimisticAction_execute 7%Z SampleMore.cart_update
          SampleMore.optimistic_confirmed))))
  = executing
  ∧ snd (useOptimisticAction SampleMore.cart None
           (useOptimisticAction_execute 7%Z SampleMore.cart_update
              SampleMore.optimistic_confirmed))
    = [].
Proof.
  apply (proj1 (useOptimisticAction_status
                  (useOptimisticAction_execute 7%Z SampleMore.cart_update
                     SampleMore.optimistic_confirmed)
                  SampleMore.cart None)).
  discriminate.
Defined.

Lemma optimisticData_baseline_witness :
  uor_optimisticData
    (snd (fst (useOptimisticAction SampleMore.cart None SampleMore.optimistic_confirmed)))
    !! "count"
  = match data (val (uo_response SampleMore.optimistic_confirmed))
          ≫= (λ confirmed, confirmed !! "count") with
    | Some v => Some v
    | None => SampleMore.cart !! "count"
    end.
Proof.
  apply (optimisticData_baseline SampleMore.optimistic_confirmed SampleMore.cart
           None "count"); [reflexivity|discriminate].
Defined.

Lemma useOptimisticAction_execute_overlay_witness :
  uor_optimisticData
    (snd (fst (useOptimisticAction SampleMore.cart None
       (useOptimisticAction_execute 7%Z SampleMore.cart_update
          SampleMore.optimistic_mounted))))
    !! "note"
  = match SampleMore.cart_update !! "note" with
    | Some v => Some v
    | None =>
        uor_optimisticData
          (snd (fst (useOptimisticAction SampleMore.cart None
                       SampleMore.optimistic_mounted))) !! "note"
    end
  ∧ uor_status
      (snd (fst (useOptimisticAction SampleMore.cart None
         (useOptimisticAction_execute 7%Z SampleMore.cart_update
            SampleMore.optimistic_mounted))))
    = executing
  ∧ uo_input (useOptimisticAction_execute 7%Z SampleMore.cart_update
                SampleMore.optimistic_mounted)
    = Some 7%Z.
Proof.
  apply (useOptimisticAction_execute_overlay SampleMore.optimistic_mounted
           SampleMore.cart None 7%Z SampleMore.cart_update "note").
  discriminate.
Defined.

Lemma useOptimisticAction_reset_then_idle_witness :
  val (uor_response (snd (fst (useOptimisticAction SampleMore.cart None
         (useOptimisticAction_reset SampleMore.optimistic_confirmed)))))
  = emptyResult
  ∧ uor_status (snd (fst (useOptimisticAction SampleMore.cart None
         (useOptimisticAction_reset SampleMore.optimistic_confirmed))))
    = idle
  ∧ snd (useOptimisticAction SampleMore.cart None
           (useOptimisticAction_reset SampleMore.optimistic_confirmed))
    = []
  ∧ uor_optimisticData
      (snd (fst (useOptimisticAction SampleMore.cart None
         (useOptimisticAction_reset SampleMore.optimistic_confirmed)))) !! "count"
    = SampleMore.cart !! "count".
Proof.
  apply (useOptimisticAction_reset_then_idle SampleMore.optimistic_confirmed
           SampleMore.cart None "count"); [reflexivity|discriminate].
Defined.


(** On the samples: the confirmed count replaces the initial one, an
    update in flight replaces it in turn, and the note stays. *)
Example optimistic_views :
  uor_optimisticData
    (snd (fst (useOptimisticAction SampleMore.cart None SampleMore.optimistic_confirmed)))
  = {[ "count" := 3%Z; "note" := 5%Z ]}
  ∧ uor_optimisticData
      (snd (fst (useOptimisticAction SampleMore.cart None
         (useOptimisticAction_execute 7%Z SampleMore.cart_update
            SampleMore.optimistic_confirmed))))
    = {[ "count" := 2%Z; "note" := 5%Z ]}.
Proof. split; by vm_compute. Qed.
